(** * ShuntingYardSample: infix to postfix conversion and postfix evaluation

    A shallow embedding of [ShuntingYardSample.cpp]: the three token
    predicates, [ShuntingYard::shuntInfixToRPN], [RPN::calculatePostfix]
    and [evaluate], followed by the properties proved about them.

    Conventions of the embedding.
    - [std::string] is [string]; [std::vector<std::string>] is
      [list string].
    - [std::stack<T>] is a [list T] whose head is the top of the stack;
      [std::queue<T>] is a [list T] whose head is the front, [push]
      appends at the tail.
    - [int] is a [Z] in the range of a 32-bit two's complement integer.
      Signed overflow and division by zero have no defined result in C++;
      so has [top()] on an empty [std::stack].  These executions are
      reported by a distinguished constructor ([UB] / [Undefined]) and
      nothing is assumed about them.
    - [std::stoi] throws [std::out_of_range] on a literal above [INT_MAX];
      nothing catches it, which is reported by [Throw] / [Throws].
    - A [return false] is recorded with the diagnostic the code prints
      just before it, see [failure_point].
    - The member containers of the two classes are explicit: a member
      function receives the object's state and returns the new one. *)

From Stdlib Require Import List String Ascii ZArith Bool Lia Permutation.
Import ListNotations.
Open Scope string_scope.
Open Scope list_scope.
Open Scope Z_scope.

(** ** Global methods *)

(** [isOperator]: the token is one of the four arithmetic operators. *)
Definition isOperator (token : string) : bool :=
  (token =? "+")%string || (token =? "-")%string ||
  (token =? "*")%string || (token =? "/")%string.

(** [isParenthesis]: the token is a bracket. *)
Definition isParenthesis (token : string) : bool :=
  (token =? "(")%string || (token =? ")")%string.

(** [isdigit] of the C locale: the characters '0' to '9'.  Bytes above 127
    are taken to be non-digits, as the C library tables have them; where
    plain [char] is signed the C standard leaves [isdigit(token[i])]
    undefined for such a byte, so a statement that excludes undefined
    behaviour is made for tokens of ASCII characters only (see
    [allAscii]). *)
Definition isdigit (c : ascii) : bool :=
  let n := nat_of_ascii c in (48 <=? n)%nat && (n <=? 57)%nat.

(** The loop of [verifyInteger]; [isInteger] is the flag of the source. *)
Fixpoint verifyIntegerLoop (token : string) (isInteger : bool) : bool :=
  match token with
  | EmptyString => isInteger
  | String c rest =>
      if negb (isdigit c) then false else verifyIntegerLoop rest true
  end.

(** [verifyInteger]: every character is a digit and there is at least one. *)
Definition verifyInteger (token : string) : bool :=
  verifyIntegerLoop token false.

(** The diagnostics printed before a [return false]. *)
Inductive failure_point : Type :=
| MismatchedParenthesis
    (* "Failure Point: Mismatched parenthesis" (right bracket, and drain) *)
| DefaultCondition
    (* "Failure Point: Default condition": invalid token in the shunter *)
| NotEnoughArguments
    (* "Not enough arguements. Evaluation failed" *)
| InvalidExpression.
    (* "Invalid expression. Returning 0." *)

(** ** Shunting Yard Algorithm *)

Module ShuntingYard.

(** The private members of [class ShuntingYard]. *)
Record state : Type := mkState {
  operatorStack : list string;
  outputQueue : list string
}.

(** A newly constructed object: both containers are empty. *)
Definition fresh : state := mkState [] [].

(** What a piece of the function body does: fall through to the next
    statement, leave the function with [return false], or run into
    undefined behaviour. *)
Inductive control : Type :=
| Next (self : state)
| ReturnFalse (fp : failure_point) (self : state)
| UB.

(** What a call does: the value returned, the object afterwards and the
    caller's [returnArray] afterwards. *)
Inductive outcome : Type :=
| ReturnsTrue (self : state) (returnArray : list string)
| ReturnsFalse (fp : failure_point) (self : state) (returnArray : list string)
| Undefined.

(** The [while (topOperatorStackToken != "(")] loop of the right bracket
    case.  [top] is the cached [topOperatorStackToken], [below] the
    operator stack under its top element.  The result is the cached
    token, the operator stack and the output queue when the loop exits. *)
Fixpoint whileNotLeft (top : string) (below : list string)
         (queue : list string) : string * list string * list string :=
  if negb (top =? "(")%string then
    (* outputQueue.push(top); operatorStack.pop(); *)
    match below with
    | [] => (top, [], queue ++ [top])           (* stack emptied: break *)
    | next :: below' => whileNotLeft next below' (queue ++ [top])
    end
  else (top, top :: below, queue).

(** The body of the [for] loop for one token. *)
Definition shuntToken (currentToken : string) (self : state) : control :=
  if verifyInteger currentToken then
    Next (mkState (operatorStack self) (outputQueue self ++ [currentToken]))
  else if isOperator currentToken then
    Next (mkState (currentToken :: operatorStack self) (outputQueue self))
  else if (currentToken =? "(")%string then
    Next (mkState (currentToken :: operatorStack self) (outputQueue self))
  else if (currentToken =? ")")%string then
    match operatorStack self with
    | [] => UB                       (* operatorStack.top() on an empty stack *)
    | top :: below =>
        let '(topOperatorStackToken, stack, queue) :=
          whileNotLeft top below (outputQueue self) in
        (* if (!operatorStack.empty()) operatorStack.pop(); *)
        let stack' := match stack with [] => [] | _ :: rest => rest end in
        if negb (topOperatorStackToken =? "(")%string
        then ReturnFalse MismatchedParenthesis (mkState stack' queue)
        else Next (mkState stack' queue)
    end
  else if negb (currentToken =? "")%string then
    ReturnFalse DefaultCondition self
  else Next self.

(** The [for] loop over the input tokens. *)
Fixpoint forTokens (inputTokens : list string) (self : state) : control :=
  match inputTokens with
  | [] => Next self
  | currentToken :: rest =>
      match shuntToken currentToken self with
      | Next self' => forTokens rest self'
      | stop => stop
      end
  end.

(** The [while (!operatorStack.empty())] loop that clears the stack. *)
Fixpoint drain (stack queue : list string) : control :=
  match stack with
  | [] => Next (mkState [] queue)
  | topOperatorStackToken :: below =>
      if isParenthesis topOperatorStackToken
      then ReturnFalse MismatchedParenthesis (mkState stack queue)
      else drain below (queue ++ [topOperatorStackToken])
  end.

(** The [while (!outputQueue.empty())] loop: the front of the queue goes
    to the back of the return array. *)
Fixpoint copyQueue (queue returnArray : list string) : list string :=
  match queue with
  | [] => returnArray
  | front :: queue' => copyQueue queue' (returnArray ++ [front])
  end.

Definition shuntInfixToRPN (self : state) (inputTokens : list string)
           (returnArray : list string) : outcome :=
  match forTokens inputTokens self with
  | UB => Undefined
  | ReturnFalse fp self' => ReturnsFalse fp self' returnArray
  | Next self1 =>
      match drain (operatorStack self1) (outputQueue self1) with
      | UB => Undefined
      | ReturnFalse fp self' => ReturnsFalse fp self' returnArray
      | Next self2 =>
          ReturnsTrue (mkState (operatorStack self2) [])
                      (copyQueue (outputQueue self2) returnArray)
      end
  end.

End ShuntingYard.

(** ** RPN Calculation *)

Module RPN.

Definition INT_MAX : Z := 2147483647.
Definition INT_MIN : Z := -2147483648.

(** The mathematical result [z] is a value of type [int]. *)
Definition representable (z : Z) : bool :=
  (INT_MIN <=? z) && (z <=? INT_MAX).

(** An [int] expression whose mathematical value is [z]: its value when
    representable, no defined value otherwise. *)
Definition asInt (z : Z) : option Z :=
  if representable z then Some z else None.

(** [x / y] on [int]: truncation towards zero; undefined for a zero
    divisor and for a quotient out of range. *)
Definition intDiv (x y : Z) : option Z :=
  if y =? 0 then None else asInt (Z.quot x y).

(** Decimal value of a string of digits. *)
Fixpoint digitsValue (token : string) (acc : Z) : Z :=
  match token with
  | EmptyString => acc
  | String c rest =>
      digitsValue rest (10 * acc + (Z.of_nat (nat_of_ascii c) - 48))
  end.

(** [std::stoi] on a token accepted by [verifyInteger] (its only use):
    [None] stands for the [std::out_of_range] exception. *)
Definition stoi (token : string) : option Z :=
  let v := digitsValue token 0 in
  if v <=? INT_MAX then Some v else None.

(** The private member of [class RPN] is [valueStack : list Z]. *)
Inductive control : Type :=
| Next (valueStack : list Z)
| ReturnTrue (result : Z) (valueStack : list Z)
| ReturnFalse (fp : failure_point) (valueStack : list Z)
| UB
| Throw.

Inductive outcome : Type :=
| ReturnsTrue (result : Z) (valueStack : list Z)
| ReturnsFalse (fp : failure_point) (valueStack : list Z)
| Undefined
| Throws.

(** One operator branch: [arg1] is the top, [arg2] the value under it,
    [tmpResult] is pushed back.  [None] is undefined behaviour. *)
Definition applyTop2 (tmpResult : Z -> Z -> option Z)
           (valueStack : list Z) : option (list Z) :=
  match valueStack with
  | arg1 :: arg2 :: rest =>
      match tmpResult arg1 arg2 with
      | Some r => Some (r :: rest)
      | None => None
      end
  | _ => None
  end.

(** The block guarded by [valueStack.size() >= 2]: the chain
    [if "+" ... else if "-" ... else if "*" ...] followed by the
    separate [if "/"]. *)
Definition applyOperator (currentToken : string)
           (valueStack : list Z) : option (list Z) :=
  let afterChain :=
    if (currentToken =? "+")%string then
      applyTop2 (fun arg1 arg2 => asInt (arg1 + arg2)) valueStack
    else if (currentToken =? "-")%string then
      applyTop2 (fun arg1 arg2 => asInt (arg1 - arg2)) valueStack
    else if (currentToken =? "*")%string then
      applyTop2 (fun arg1 arg2 => asInt (arg1 * arg2)) valueStack
    else Some valueStack in
  match afterChain with
  | None => None
  | Some valueStack' =>
      if (currentToken =? "/")%string then
        applyTop2 (fun arg1 arg2 => intDiv arg2 arg1) valueStack'
      else Some valueStack'
  end.

(** The body of the [for] loop for one token. *)
Definition evalToken (currentToken : string) (valueStack : list Z)
  : control :=
  if verifyInteger currentToken then
    match stoi currentToken with
    | Some v => Next (v :: valueStack)
    | None => Throw
    end
  else if isOperator currentToken then
    if (List.length valueStack =? 1)%nat then
      (* result = valueStack.top(); valueStack.pop(); return true; *)
      match valueStack with
      | top :: rest => ReturnTrue top rest
      | [] => UB
      end
    else if (2 <=? List.length valueStack)%nat then
      match applyOperator currentToken valueStack with
      | Some valueStack' => Next valueStack'
      | None => UB
      end
    else ReturnFalse NotEnoughArguments valueStack
  else ReturnFalse InvalidExpression valueStack.

(** The [for] loop over the input tokens. *)
Fixpoint forTokens (inputTokens : list string) (valueStack : list Z)
  : control :=
  match inputTokens with
  | [] => Next valueStack
  | currentToken :: rest =>
      match evalToken currentToken valueStack with
      | Next valueStack' => forTokens rest valueStack'
      | stop => stop
      end
  end.

Definition calculatePostfix (valueStack : list Z)
           (inputTokens : list string) : outcome :=
  match forTokens inputTokens valueStack with
  | Next valueStack' =>
      match valueStack' with
      | top :: _ => ReturnsTrue top valueStack'   (* result = valueStack.top() *)
      | [] => Undefined                           (* top() on an empty stack *)
      end
  | ReturnTrue result valueStack' => ReturnsTrue result valueStack'
  | ReturnFalse fp valueStack' => ReturnsFalse fp valueStack'
  | UB => Undefined
  | Throw => Throws
  end.

End RPN.

(** ** evaluate *)

(** [isspace] of the C locale. *)
Definition isspace (c : ascii) : bool :=
  match nat_of_ascii c with
  | 32%nat | 9%nat | 10%nat | 11%nat | 12%nat | 13%nat => true
  | _ => false
  end.

(** The words [tokeniser >> temp] extracts from the rest of the stream;
    [temp] holds the characters of the word being read. *)
Fixpoint extractWords (expression : string) (temp : string) : list string :=
  match expression with
  | EmptyString =>
      match temp with EmptyString => [] | _ => [temp] end
  | String c rest =>
      if isspace c then
        match temp with
        | EmptyString => extractWords rest ""
        | _ => temp :: extractWords rest ""
        end
      else extractWords rest (temp ++ String c "")%string
  end.

(** The [while (tokeniser)] loop: the stream only turns false on an
    extraction that fails, whose empty [temp] is pushed as well. *)
Definition tokenise (expression : string) : list string :=
  extractWords expression "" ++ [""].

(** What [evaluate] does: [true] with the result, [false], undefined
    behaviour, or an exception that leaves the function. *)
Inductive evaluation : Type :=
| EvalTrue (result : Z)
| EvalFalse (fp : failure_point)
| EvalUndefined
| EvalThrows.

Definition evaluate (expression : string) : evaluation :=
  let tokens := tokenise expression in
  match ShuntingYard.shuntInfixToRPN ShuntingYard.fresh tokens [] with
  | ShuntingYard.ReturnsTrue _ shuntedOutput =>
      match RPN.calculatePostfix [] shuntedOutput with
      | RPN.ReturnsTrue result _ => EvalTrue result
      | RPN.ReturnsFalse fp _ => EvalFalse fp
      | RPN.Undefined => EvalUndefined
      | RPN.Throws => EvalThrows
      end
  | ShuntingYard.ReturnsFalse fp _ _ => EvalFalse fp
  | ShuntingYard.Undefined => EvalUndefined
  end.

(** ** Predicates used in the statements *)

(** No token of [l] is a bracket. *)
Definition noParenthesis (l : list string) : Prop :=
  Forall (fun token => isParenthesis token = false) l.

(** No token of [l] is a right bracket. *)
Definition noRightParenthesis (l : list string) : Prop :=
  Forall (fun token => (token =? ")")%string = false) l.

(** No token of [l] is a left bracket. *)
Definition noLeftParenthesis (l : list string) : Prop :=
  Forall (fun token => (token =? "(")%string = false) l.

(** What holds of the members of a [ShuntingYard] object between calls:
    a right bracket is never stacked, a bracket is never queued. *)
Definition shunterInvariant (self : ShuntingYard.state) : Prop :=
  noRightParenthesis (ShuntingYard.operatorStack self) /\
  noParenthesis (ShuntingYard.outputQueue self).

(** ** main *)

(** The expressions [main] evaluates, and what [evaluate] returns for each
    in turn (the console output is not modelled). *)
Definition testExpressions : list string :=
  [ "1 + 3";
    "( 1 + 3 ) * 2";
    "( 4 / 2 ) + 6";
    "4 + ( 12 / ( 1 * 2 ) )";
    "( 1 + ( 12 * 2 )" ].

Definition mainEvaluations : list evaluation :=
  map evaluate testExpressions.

(** ** Vocabulary of the further properties *)

(** Every character of [token] is a decimal digit. *)
Definition allDigits (token : string) : Prop :=
  Forall (fun c => isdigit c = true) (list_ascii_of_string token).

(** [token] contains no white space. *)
Fixpoint noSpace (token : string) : bool :=
  match token with
  | EmptyString => true
  | String c rest => negb (isspace c) && noSpace rest
  end.

(** A word: what one extraction from the stream can deliver. *)
Definition isWord (token : string) : bool :=
  negb (token =? "")%string && noSpace token.

(** The words separated by single blanks. *)
Fixpoint unwords (words : list string) : string :=
  match words with
  | [] => ""
  | word :: rest =>
      match rest with
      | [] => word
      | _ => (word ++ " " ++ unwords rest)%string
      end
  end.

(** The tokens the shunter keeps: integers and operators. *)
Definition isOperand_or_operator (token : string) : bool :=
  verifyInteger token || isOperator token.

(** Fully parenthesised expressions over integer literals. *)
Inductive expr : Type :=
| Lit (literal : string)
| Bin (op : string) (lhs rhs : expr).

(** The literals are integers and the operators are operators. *)
Fixpoint wellFormed (e : expr) : bool :=
  match e with
  | Lit literal => verifyInteger literal
  | Bin op lhs rhs => isOperator op && wellFormed lhs && wellFormed rhs
  end.

(** The infix tokens of [e], every operation in brackets. *)
Fixpoint infix (e : expr) : list string :=
  match e with
  | Lit literal => [literal]
  | Bin op lhs rhs => ["("] ++ infix lhs ++ [op] ++ infix rhs ++ [")"]
  end.

(** The infix tokens of [e] without the outermost brackets, as in
    "( 1 + 3 ) * 2". *)
Definition infixOpen (e : expr) : list string :=
  match e with
  | Lit literal => [literal]
  | Bin op lhs rhs => infix lhs ++ [op] ++ infix rhs
  end.

(** The postfix tokens of [e]. *)
Fixpoint postfix (e : expr) : list string :=
  match e with
  | Lit literal => [literal]
  | Bin op lhs rhs => postfix lhs ++ postfix rhs ++ [op]
  end.

(** The value of [lhs op rhs] in [int] arithmetic; [None] when it has
    none (overflow, zero divisor). *)
Definition arith (op : string) (lhs rhs : Z) : option Z :=
  if (op =? "+")%string then RPN.asInt (lhs + rhs)
  else if (op =? "-")%string then RPN.asInt (lhs - rhs)
  else if (op =? "*")%string then RPN.asInt (lhs * rhs)
  else if (op =? "/")%string then RPN.intDiv lhs rhs
  else None.

(** The same with the operands of a subtraction exchanged. *)
Definition arithSwapped (op : string) (lhs rhs : Z) : option Z :=
  if (op =? "-")%string then RPN.asInt (rhs - lhs) else arith op lhs rhs.

(** The value of an expression under a table of operations. *)
Fixpoint valueWith (table : string -> Z -> Z -> option Z) (e : expr)
  : option Z :=
  match e with
  | Lit literal => RPN.stoi literal
  | Bin op lhs rhs =>
      match valueWith table lhs, valueWith table rhs with
      | Some l, Some r => table op l r
      | _, _ => None
      end
  end.

(** The arithmetic value of [e]. *)
Definition value (e : expr) : option Z := valueWith arith e.

(** [e] contains a subtraction. *)
Fixpoint usesMinus (e : expr) : bool :=
  match e with
  | Lit _ => false
  | Bin op lhs rhs => (op =? "-")%string || usesMinus lhs || usesMinus rhs
  end.

(** What the containers of a [ShuntingYard] object hold when it starts
    empty: operators and left brackets on the stack, integers and
    operators in the queue. *)
Definition shunterClasses (self : ShuntingYard.state) : Prop :=
  Forall (fun token => isOperator token || (token =? "(")%string = true)
         (ShuntingYard.operatorStack self) /\
  Forall (fun token => isOperand_or_operator token = true)
         (ShuntingYard.outputQueue self).

(** The tokens of [l] other than the left bracket. *)
Definition withoutLeft (l : list string) : list string :=
  filter (fun token => negb (token =? "(")%string) l.

(** Every character of [token] is an ASCII character (a byte below 128):
    the tokens on which [isdigit] is defined whatever the signedness of
    plain [char]. *)
Fixpoint allAscii (token : string) : bool :=
  match token with
  | EmptyString => true
  | String c rest => (nat_of_ascii c <? 128)%nat && allAscii rest
  end.

(** The tokens the loop of the shunter pushes onto the operator stack. *)
Definition isStacked (token : string) : bool :=
  isOperator token || (token =? "(")%string.

(** ** Sanity checks on the sample expressions of [main] *)

Example tokenise_sample :
  tokenise "( 1 + 3 ) * 2" = ["("; "1"; "+"; "3"; ")"; "*"; "2"; ""].
Proof. reflexivity. Qed.

Example tokenise_blank : tokenise "" = [""].
Proof. reflexivity. Qed.

Example evaluate_sample1 : evaluate "1 + 3" = EvalTrue 4.
Proof. vm_compute. reflexivity. Qed.

Example evaluate_sample2 : evaluate "( 1 + 3 ) * 2" = EvalTrue 8.
Proof. vm_compute. reflexivity. Qed.

Example evaluate_sample3 : evaluate "( 4 / 2 ) + 6" = EvalTrue 8.
Proof. vm_compute. reflexivity. Qed.

(** ** Token classification *)

Lemma isOperator_cases token :
  isOperator token = true ->
  token = "+" \/ token = "-" \/ token = "*" \/ token = "/".
Proof.
  unfold isOperator. intros H.
  destruct (String.eqb_spec token "+"); [now left|].
  destruct (String.eqb_spec token "-"); [now right; left|].
  destruct (String.eqb_spec token "*"); [now right; right; left|].
  destruct (String.eqb_spec token "/"); [now right; right; right|].
  discriminate H.
Qed.

Lemma isOperator_not_integer token :
  isOperator token = true -> verifyInteger token = false.
Proof.
  intros H. destruct (isOperator_cases token H) as [->|[->|[->| ->]]];
    reflexivity.
Qed.

Lemma isOperator_not_parenthesis token :
  isOperator token = true -> isParenthesis token = false.
Proof.
  intros H. destruct (isOperator_cases token H) as [->|[->|[->| ->]]];
    reflexivity.
Qed.

Lemma verifyInteger_not_parenthesis token :
  verifyInteger token = true -> isParenthesis token = false.
Proof.
  intros H. unfold isParenthesis.
  destruct (String.eqb_spec token "("); [subst; discriminate H|].
  destruct (String.eqb_spec token ")"); [subst; discriminate H|].
  reflexivity.
Qed.

Lemma isParenthesis_false token :
  isParenthesis token = false ->
  (token =? "(")%string = false /\ (token =? ")")%string = false.
Proof. unfold isParenthesis. intros H. now apply orb_false_iff in H. Qed.

Lemma verifyInteger_empty : verifyInteger "" = false.
Proof. reflexivity. Qed.

(** ** The shunter: loops *)

Section ShunterLoops.
Import ShuntingYard.

Lemma shunt_forTokens_app pre post : forall self,
  forTokens (pre ++ post) self =
  match forTokens pre self with
  | Next self' => forTokens post self'
  | stop => stop
  end.
Proof.
  induction pre as [|token pre IH]; intros self; simpl.
  - reflexivity.
  - destruct (shuntToken token self); auto.
Qed.

Lemma copyQueue_app queue : forall returnArray,
  copyQueue queue returnArray = returnArray ++ queue.
Proof.
  induction queue as [|front queue IH]; intros returnArray; simpl.
  - now rewrite app_nil_r.
  - rewrite IH, <- app_assoc. reflexivity.
Qed.

(** The drain loop goes through exactly when no bracket is stacked, and
    then the whole stack, top first, is appended to the queue. *)
Lemma drain_Next stack : forall queue self',
  drain stack queue = Next self' ->
  noParenthesis stack /\ self' = mkState [] (queue ++ stack).
Proof.
  induction stack as [|top below IH]; intros queue self'; simpl.
  - intros [= <-]. split; [constructor|now rewrite app_nil_r].
  - destruct (isParenthesis top) eqn:Etop; [discriminate|].
    intros H. apply IH in H as [Hbelow ->]. split.
    + now constructor.
    + now rewrite <- app_assoc.
Qed.

Lemma drain_never_UB stack : forall queue, drain stack queue <> UB.
Proof.
  induction stack as [|top below IH]; intros queue; simpl.
  - discriminate.
  - destruct (isParenthesis top); [discriminate|apply IH].
Qed.

(** A bracket anywhere on the stack stops the drain loop with the
    mismatched parenthesis diagnostic. *)
Lemma drain_parenthesis stack : forall queue,
  Exists (fun token => isParenthesis token = true) stack ->
  exists self', drain stack queue = ReturnFalse MismatchedParenthesis self'.
Proof.
  induction stack as [|top below IH]; intros queue Hex.
  - inversion Hex.
  - simpl. destruct (isParenthesis top) eqn:Etop.
    + eauto.
    + apply IH. inversion Hex; subst; [congruence|assumption].
Qed.

(** The loop of the right bracket case, when no left bracket is stacked:
    the whole stack goes to the queue and the cached token is not a left
    bracket. *)
Lemma whileNotLeft_no_left below : forall top queue,
  noLeftParenthesis (top :: below) ->
  exists last,
    whileNotLeft top below queue = (last, [], queue ++ top :: below) /\
    (last =? "(")%string = false.
Proof.
  induction below as [|next below IH]; intros top queue Hno;
    inversion Hno as [|? ? Htop Hbelow]; subst; simpl; rewrite Htop; simpl.
  - eauto.
  - destruct (IH next (queue ++ [top]) Hbelow) as (last & -> & Hlast).
    exists last. now rewrite <- app_assoc.
Qed.

(** The same loop when a left bracket is stacked: the tokens above the
    first left bracket go to the queue, the loop stops at the bracket. *)
Lemma whileNotLeft_left above : forall top below queue tokens,
  top :: below = above ++ "(" :: tokens ->
  noLeftParenthesis above ->
  whileNotLeft top below queue = ("(", "(" :: tokens, queue ++ above).
Proof.
  induction above as [|a above IH]; intros top below queue tokens Heq Hno;
    simpl in Heq; injection Heq as -> ->.
  - destruct tokens; simpl; now rewrite app_nil_r.
  - inversion Hno as [|? ? Ha Habove]; subst.
    destruct above as [|b above]; simpl; rewrite Ha; simpl.
    + rewrite (IH "(" tokens (queue ++ [a]) tokens eq_refl Habove).
      now rewrite app_nil_r.
    + rewrite (IH b (above ++ "(" :: tokens) (queue ++ [a]) tokens
                 eq_refl Habove).
      now rewrite <- app_assoc.
Qed.

Lemma whileNotLeft_invariant below : forall top queue last stack queue',
  whileNotLeft top below queue = (last, stack, queue') ->
  noRightParenthesis (top :: below) -> noParenthesis queue ->
  noRightParenthesis stack /\ noParenthesis queue'.
Proof.
  induction below as [|next below IH];
    intros top queue last stack queue' Hrun Hstack Hqueue;
    inversion Hstack as [|? ? Htop Hbelow]; subst; simpl in Hrun;
    destruct (String.eqb_spec top "(") as [->|Hneq]; simpl in Hrun.
  - injection Hrun as <- <- <-. auto.
  - injection Hrun as <- <- <-. split; [constructor|].
    apply Forall_app. split; [assumption|].
    constructor; [|constructor]. unfold isParenthesis.
    rewrite Htop. now apply String.eqb_neq in Hneq as ->.
  - injection Hrun as <- <- <-. auto.
  - eapply IH; eauto. apply Forall_app. split; [assumption|].
    constructor; [|constructor]. unfold isParenthesis.
    rewrite Htop. now apply String.eqb_neq in Hneq as ->.
Qed.

Lemma drain_invariant stack : forall queue,
  noRightParenthesis stack -> noParenthesis queue ->
  match drain stack queue with
  | Next self' | ReturnFalse _ self' => shunterInvariant self'
  | UB => True
  end.
Proof.
  induction stack as [|top below IH]; intros queue Hstack Hqueue; simpl.
  - now split.
  - destruct (isParenthesis top) eqn:Etop; [now split|].
    inversion Hstack; subst. apply IH; [assumption|].
    apply Forall_app. split; [assumption|]. now repeat constructor.
Qed.

End ShunterLoops.

(** ** The shunter: one token *)

Section ShunterToken.
Import ShuntingYard.

(** A right bracket over a non-empty stack without left bracket: the
    stack is emptied into the queue and the call fails. *)
Lemma shuntToken_right_unmatched top below queue :
  noLeftParenthesis (top :: below) ->
  shuntToken ")" (mkState (top :: below) queue) =
  ReturnFalse MismatchedParenthesis (mkState [] (queue ++ top :: below)).
Proof.
  intros Hno. unfold shuntToken. simpl.
  destruct (whileNotLeft_no_left below top queue Hno) as (last & -> & ->).
  reflexivity.
Qed.

(** A right bracket over a stack with a left bracket: the tokens above
    the bracket are queued, the bracket is dropped. *)
Lemma shuntToken_right_matched above tokens queue :
  noLeftParenthesis above ->
  shuntToken ")" (mkState (above ++ "(" :: tokens) queue) =
  Next (mkState tokens (queue ++ above)).
Proof.
  intros Hno. unfold shuntToken. simpl.
  destruct (above ++ "(" :: tokens) as [|top below] eqn:Estack.
  - now destruct above.
  - now rewrite (whileNotLeft_left above top below queue tokens
                   (eq_sym Estack) Hno).
Qed.

Lemma shuntToken_invariant token self :
  shunterInvariant self ->
  match shuntToken token self with
  | Next self' | ReturnFalse _ self' => shunterInvariant self'
  | UB => True
  end.
Proof.
  intros [Hstack Hqueue]. unfold shuntToken.
  destruct (verifyInteger token) eqn:Eint.
  { split; simpl; [assumption|]. apply Forall_app. split; [assumption|].
    constructor; [|constructor]. now apply verifyInteger_not_parenthesis. }
  destruct (isOperator token) eqn:Eop.
  { split; simpl; [|assumption]. constructor; [|assumption].
    now apply isOperator_not_parenthesis, isParenthesis_false in Eop. }
  destruct (String.eqb_spec token "(") as [->|Hleft].
  { split; simpl; [|assumption]. now constructor. }
  destruct (String.eqb_spec token ")") as [->|Hright].
  { destruct (operatorStack self) as [|top below] eqn:Estack; [exact I|].
    destruct (whileNotLeft top below (outputQueue self))
      as [[last stack] queue] eqn:Erun.
    destruct (whileNotLeft_invariant _ _ _ _ _ _ Erun Hstack Hqueue)
      as [Hstack' Hqueue'].
    assert (Hpop : noRightParenthesis
                     match stack with [] => [] | _ :: rest => rest end).
    { destruct stack; [constructor|now inversion Hstack']. }
    destruct (negb (last =? "(")%string); now split. }
  destruct (negb (token =? "")%string); now split.
Qed.

Lemma forTokens_invariant inputTokens : forall self,
  shunterInvariant self ->
  match forTokens inputTokens self with
  | Next self' | ReturnFalse _ self' => shunterInvariant self'
  | UB => True
  end.
Proof.
  induction inputTokens as [|token rest IH]; intros self Hinv; simpl.
  - assumption.
  - pose proof (shuntToken_invariant token self Hinv) as Hstep.
    destruct (shuntToken token self); [now apply IH|assumption|exact I].
Qed.

(** Every call leaves the object in a state that satisfies the
    invariant, whether it returns [true] or [false]: the invariant holds
    of every object reachable from a newly constructed one. *)
Lemma shuntInfixToRPN_invariant self inputTokens returnArray :
  shunterInvariant self ->
  match shuntInfixToRPN self inputTokens returnArray with
  | ReturnsTrue self' _ | ReturnsFalse _ self' _ => shunterInvariant self'
  | Undefined => True
  end.
Proof.
  intros Hinv. unfold shuntInfixToRPN.
  pose proof (forTokens_invariant inputTokens self Hinv) as Hloop.
  destruct (forTokens inputTokens self) as [self1|fp self1|]; auto.
  destruct Hloop as [Hstack Hqueue].
  pose proof (drain_invariant _ _ Hstack Hqueue) as Hdrain.
  destruct (drain (operatorStack self1) (outputQueue self1))
    as [self2|fp self2|]; auto.
  destruct Hdrain as [Hstack2 _]. split; [assumption|constructor].
Qed.

Lemma fresh_invariant : shunterInvariant fresh.
Proof. split; constructor. Qed.

(** The shape of a successful call: the loop over the tokens went
    through, nothing stacked was a bracket, and the queue followed by
    the stack is appended to the return array. *)
Lemma shuntInfixToRPN_true self inputTokens returnArray self' out :
  shuntInfixToRPN self inputTokens returnArray = ReturnsTrue self' out ->
  exists self1,
    forTokens inputTokens self = Next self1 /\
    noParenthesis (operatorStack self1) /\
    self' = mkState [] [] /\
    out = returnArray ++ outputQueue self1 ++ operatorStack self1.
Proof.
  unfold shuntInfixToRPN.
  destruct (forTokens inputTokens self) as [self1|fp self1|];
    [|discriminate|discriminate].
  destruct (drain (operatorStack self1) (outputQueue self1))
    as [self2|fp self2|] eqn:Edrain; [|discriminate|discriminate].
  apply drain_Next in Edrain as [Hstack ->]. simpl.
  intros [= <- <-]. exists self1. rewrite copyQueue_app. auto.
Qed.

End ShunterToken.

(** ** The shunter: properties *)

Section ShunterProperties.
Import ShuntingYard.



(** C9.  When a call on a newly constructed object returns [true], what
    it appended to the return array contains no bracket; with the empty
    array that [evaluate] passes, the returned sequence is bracket
    free. *)
Theorem shunted_output_has_no_parenthesis
        inputTokens returnArray self' out :
  shuntInfixToRPN fresh inputTokens returnArray = ReturnsTrue self' out ->
  exists postfix,
    out = returnArray ++ postfix /\ noParenthesis postfix /\
    (returnArray = [] -> noParenthesis out).
Proof.
  intros Hrun.
  apply shuntInfixToRPN_true in Hrun as (self1 & Hloop & Hstack & _ & ->).
  pose proof (forTokens_invariant inputTokens fresh fresh_invariant) as Hinv.
  rewrite Hloop in Hinv. destruct Hinv as [_ Hqueue].
  assert (Hpost : noParenthesis (outputQueue self1 ++ operatorStack self1))
    by (apply Forall_app; now split).
  exists (outputQueue self1 ++ operatorStack self1).
  repeat split; [assumption|]. now intros ->.
Qed.

Lemma shunted_output_has_no_parenthesis_witness :
  shuntInfixToRPN fresh (tokenise "( 4 / 2 ) + 6") [] =
  ReturnsTrue fresh ["4"; "2"; "/"; "6"; "+"] /\
  exists postfix,
    ["4"; "2"; "/"; "6"; "+"] = [] ++ postfix /\ noParenthesis postfix /\
    (@nil string = [] -> noParenthesis ["4"; "2"; "/"; "6"; "+"]).
Proof.
  split; [reflexivity|].
  apply (shunted_output_has_no_parenthesis
           (tokenise "( 4 / 2 ) + 6") [] fresh).
  reflexivity.
Defined.

(** The same for an object that was used before, and for every state it
    can be in (see [shuntInfixToRPN_invariant]). *)
Lemma shunted_output_has_no_parenthesis_reused
      self inputTokens returnArray self' out :
  shunterInvariant self ->
  shuntInfixToRPN self inputTokens returnArray = ReturnsTrue self' out ->
  exists postfix, out = returnArray ++ postfix /\ noParenthesis postfix.
Proof.
  intros Hself Hrun.
  apply shuntInfixToRPN_true in Hrun as (self1 & Hloop & Hstack & _ & ->).
  pose proof (forTokens_invariant inputTokens self Hself) as Hinv.
  rewrite Hloop in Hinv. destruct Hinv as [_ Hqueue].
  exists (outputQueue self1 ++ operatorStack self1).
  split; [reflexivity|]. apply Forall_app. now split.
Qed.

(** C10.  A call that returns [false] leaves the caller's return array
    as it was: the array is only written by the copy loop, after the
    last [return false]. *)
Theorem returnArray_unchanged_on_failure
        self inputTokens returnArray fp self' returnArray' :
  shuntInfixToRPN self inputTokens returnArray =
  ReturnsFalse fp self' returnArray' ->
  returnArray' = returnArray.
Proof.
  unfold shuntInfixToRPN.
  destruct (forTokens inputTokens self) as [self1|fp1 self1|].
  - destruct (drain (operatorStack self1) (outputQueue self1));
      [discriminate|now intros [= _ _ <-]|discriminate].
  - now intros [= _ _ <-].
  - discriminate.
Qed.

Lemma returnArray_unchanged_on_failure_witness :
  shuntInfixToRPN fresh (tokenise "( 1 + ( 12 * 2 )") ["9"] =
  ReturnsFalse MismatchedParenthesis
               (mkState ["("] ["1"; "12"; "2"; "*"; "+"]) ["9"] /\
  ["9"] = ["9"].
Proof.
  split; [reflexivity|].
  apply (returnArray_unchanged_on_failure
           fresh (tokenise "( 1 + ( 12 * 2 )") ["9"] MismatchedParenthesis
           (mkState ["("] ["1"; "12"; "2"; "*"; "+"]) ["9"]).
  reflexivity.
Defined.

End ShunterProperties.

(** ** The shunter: mismatched brackets *)

Section ShunterParenthesis.
Import ShuntingYard.

(** X14.  A right bracket met while the operator stack is not empty and holds
    no left bracket: the call fails with the mismatched parenthesis
    diagnostic. *)
Lemma unmatched_right_parenthesis_fails
      pre rest self0 top below queue returnArray :
  forTokens pre self0 = Next (mkState (top :: below) queue) ->
  noLeftParenthesis (top :: below) ->
  shuntInfixToRPN self0 (pre ++ ")" :: rest) returnArray =
  ReturnsFalse MismatchedParenthesis
               (mkState [] (queue ++ top :: below)) returnArray.
Proof.
  intros Hpre Hno. unfold shuntInfixToRPN.
  rewrite shunt_forTokens_app, Hpre.
  cbn [forTokens]. now rewrite shuntToken_right_unmatched.
Qed.

(** X15.  A bracket left on the operator stack after the last token: the call
    fails with the mismatched parenthesis diagnostic. *)
Lemma unclosed_left_parenthesis_fails
      inputTokens self0 self returnArray :
  forTokens inputTokens self0 = Next self ->
  Exists (fun token => isParenthesis token = true) (operatorStack self) ->
  exists self',
    shuntInfixToRPN self0 inputTokens returnArray =
    ReturnsFalse MismatchedParenthesis self' returnArray.
Proof.
  intros Hloop Hex. unfold shuntInfixToRPN. rewrite Hloop.
  destruct (drain_parenthesis _ (outputQueue self) Hex) as [self' ->].
  now exists self'.
Qed.

(** C4.  A right bracket met while the operator stack is empty reads the
    top of the empty stack, which is undefined: the call does not fail
    with the mismatched parenthesis diagnostic there, as for the tokens
    of "1 )".  The unclosed bracket of "( 1 + ( 12 * 2 )" is reported
    in the final drain. *)
Theorem right_parenthesis_on_empty_stack :
  (forall queue, shuntToken ")" (mkState [] queue) = UB) /\
  shuntInfixToRPN fresh (tokenise "1 )") [] = Undefined /\
  shuntInfixToRPN fresh (tokenise ")") [] = Undefined /\
  shuntInfixToRPN fresh (tokenise "( 1 + ( 12 * 2 )") [] =
  ReturnsFalse MismatchedParenthesis
               (mkState ["("] ["1"; "12"; "2"; "*"; "+"]) [].
Proof. repeat split; reflexivity. Qed.

End ShunterParenthesis.

(** ** The evaluator *)

Section Evaluator.
Import RPN.

Lemma eval_forTokens_app pre post : forall valueStack,
  forTokens (pre ++ post) valueStack =
  match forTokens pre valueStack with
  | Next valueStack' => forTokens post valueStack'
  | stop => stop
  end.
Proof.
  induction pre as [|token pre IH]; intros valueStack; simpl.
  - reflexivity.
  - destruct (evalToken token valueStack); auto.
Qed.

(** The four operator branches on a stack of two or more values. *)
Lemma evalToken_plus arg1 arg2 rest :
  evalToken "+" (arg1 :: arg2 :: rest) =
  match asInt (arg1 + arg2) with
  | Some r => Next (r :: rest) | None => UB end.
Proof.
  unfold evalToken, applyOperator, applyTop2. cbn.
  now destruct (asInt (arg1 + arg2)).
Qed.

Lemma evalToken_minus arg1 arg2 rest :
  evalToken "-" (arg1 :: arg2 :: rest) =
  match asInt (arg1 - arg2) with
  | Some r => Next (r :: rest) | None => UB end.
Proof.
  unfold evalToken, applyOperator, applyTop2. cbn.
  now destruct (asInt (arg1 - arg2)).
Qed.

Lemma evalToken_times arg1 arg2 rest :
  evalToken "*" (arg1 :: arg2 :: rest) =
  match asInt (arg1 * arg2) with
  | Some r => Next (r :: rest) | None => UB end.
Proof.
  unfold evalToken, applyOperator, applyTop2. cbn.
  now destruct (asInt (arg1 * arg2)).
Qed.

Lemma evalToken_divide arg1 arg2 rest :
  evalToken "/" (arg1 :: arg2 :: rest) =
  match intDiv arg2 arg1 with
  | Some r => Next (r :: rest) | None => UB end.
Proof.
  unfold evalToken, applyOperator, applyTop2. cbn.
  now destruct (intDiv arg2 arg1).
Qed.

(** Division with a non-zero divisor and a representable quotient pushes
    the quotient truncated towards zero. *)
Lemma evalToken_divide_nonzero arg1 arg2 rest :
  arg1 <> 0 ->
  representable (Z.quot arg2 arg1) = true ->
  evalToken "/" (arg1 :: arg2 :: rest) = Next (Z.quot arg2 arg1 :: rest).
Proof.
  intros Hnz Hrep. rewrite evalToken_divide. unfold intDiv, asInt.
  apply Z.eqb_neq in Hnz. now rewrite Hnz, Hrep.
Qed.

Example division_truncates_towards_zero :
  evalToken "/" [2; -7] = Next [-3].
Proof. reflexivity. Qed.

End Evaluator.

(** ** The evaluator: properties *)

Section EvaluatorProperties.
Import RPN.

(** C1.  On a stack of two or more values the division branch computes
    [arg2 / arg1], as its comment says, but the subtraction branch
    computes [arg1 - arg2] with [arg1] the top of the stack: the postfix
    of "5 - 3" evaluates to -2, whereas "6 / 3" evaluates to 2. *)
Theorem subtraction_operands_reversed :
  (forall arg1 arg2 rest,
      evalToken "-" (arg1 :: arg2 :: rest) =
      match asInt (arg1 - arg2) with
      | Some r => Next (r :: rest) | None => UB end) /\
  (forall arg1 arg2 rest,
      evalToken "/" (arg1 :: arg2 :: rest) =
      match intDiv arg2 arg1 with
      | Some r => Next (r :: rest) | None => UB end) /\
  calculatePostfix [] ["5"; "3"; "-"] = ReturnsTrue (-2) [-2] /\
  evaluate "5 - 3" = EvalTrue (-2) /\
  evaluate "6 / 3" = EvalTrue 2.
Proof.
  split; [exact evalToken_minus|].
  split; [exact evalToken_divide|].
  repeat split; reflexivity.
Qed.

(** C2.  A division whose divisor, the value popped first, is zero has
    no defined result and is not reported as a failure: "( 5 / 0 )" is
    undefined.  With a non-zero divisor the quotient is truncated:
    "( 10 / 3 )" evaluates to 3. *)
Theorem division_by_zero_is_undefined :
  (forall arg2 rest, evalToken "/" (0 :: arg2 :: rest) = UB) /\
  calculatePostfix [] ["5"; "0"; "/"] = Undefined /\
  evaluate "( 5 / 0 )" = EvalUndefined /\
  evaluate "( 10 / 3 )" = EvalTrue 3.
Proof.
  split; [|repeat split; reflexivity].
  intros arg2 rest. now rewrite evalToken_divide.
Qed.

(** C3, as the code has it.  When the loop over the tokens ends without
    an early return and the value stack is not empty, the call returns
    [true] with the top of the stack as result, however many values lie
    under it; with exactly one value, that value. *)
Theorem final_top_is_result inputTokens valueStack0 top rest :
  forTokens inputTokens valueStack0 = Next (top :: rest) ->
  calculatePostfix valueStack0 inputTokens = ReturnsTrue top (top :: rest).
Proof. unfold calculatePostfix. now intros ->. Qed.

Lemma final_top_is_result_witness :
  forTokens ["4"; "2"; "/"; "6"; "+"] [] = Next [8] /\
  calculatePostfix [] ["4"; "2"; "/"; "6"; "+"] = ReturnsTrue 8 [8].
Proof.
  split; [reflexivity|].
  apply (final_top_is_result ["4"; "2"; "/"; "6"; "+"] [] 8 []).
  reflexivity.
Defined.

(** Two values left on the stack at the end are not a failure: the call
    returns [true] with the top one. *)
Lemma two_values_left_is_success :
  forTokens ["1"; "2"] [] = Next [2; 1] /\
  calculatePostfix [] ["1"; "2"] = ReturnsTrue 2 [2; 1] /\
  (forall fp valueStack,
      calculatePostfix [] ["1"; "2"] <> ReturnsFalse fp valueStack) /\
  evaluate "1 2" = EvalTrue 2.
Proof.
  split; [reflexivity|]. split; [reflexivity|]. split; [|reflexivity].
  intros fp valueStack. discriminate.
Qed.

(** No value left at the end: the result is read from the top of an
    empty stack.  The blank expression gets there. *)
Lemma empty_stack_at_end_is_undefined :
  calculatePostfix [] [] = Undefined /\ evaluate "" = EvalUndefined.
Proof. split; reflexivity. Qed.

(** C5.  An operator met while the value stack holds exactly one value:
    the value is popped and returned as the result with [true], whatever
    tokens follow; the operator is not applied and nothing fails. *)
Theorem single_value_returned_at_operator
        pre token rest valueStack0 v :
  isOperator token = true ->
  forTokens pre valueStack0 = Next [v] ->
  calculatePostfix valueStack0 (pre ++ token :: rest) = ReturnsTrue v [].
Proof.
  intros Hop Hpre. unfold calculatePostfix.
  rewrite eval_forTokens_app, Hpre. cbn [forTokens].
  unfold evalToken. rewrite (isOperator_not_integer token Hop), Hop.
  reflexivity.
Qed.

Lemma single_value_returned_at_operator_witness :
  isOperator "+" = true /\
  forTokens ["3"; "4"; "*"] [] = Next [12] /\
  calculatePostfix [] (["3"; "4"; "*"] ++ "+" :: ["x"; "5"]) =
  ReturnsTrue 12 [].
Proof.
  split; [reflexivity|]. split; [reflexivity|].
  apply (single_value_returned_at_operator ["3"; "4"; "*"] "+" ["x"; "5"]);
    reflexivity.
Defined.

(** C7.  The fourth sample expression of [main]. *)
Theorem sample_expression_evaluates_to_10 :
  ShuntingYard.shuntInfixToRPN ShuntingYard.fresh
    (tokenise "4 + ( 12 / ( 1 * 2 ) )") [] =
  ShuntingYard.ReturnsTrue ShuntingYard.fresh
    ["4"; "12"; "1"; "2"; "*"; "/"; "+"] /\
  calculatePostfix [] ["4"; "12"; "1"; "2"; "*"; "/"; "+"] =
  ReturnsTrue 10 [10] /\
  evaluate "4 + ( 12 / ( 1 * 2 ) )" = EvalTrue 10.
Proof. repeat split; reflexivity. Qed.

End EvaluatorProperties.

(** * Further properties *)

(** ** Classification of tokens *)

Section TokenClasses.

Lemma verifyIntegerLoop_true token : forall isInteger,
  verifyIntegerLoop token isInteger = true <->
  allDigits token /\ (token <> "" \/ isInteger = true).
Proof.
  unfold allDigits.
  induction token as [|c rest IH]; intros isInteger; simpl.
  - split.
    + intros ->. split; [constructor|now right].
    + now intros [_ [Hne| ->]].
  - destruct (isdigit c) eqn:Ec; simpl.
    + rewrite IH. split.
      * intros [Hrest _]. split; [now constructor|now left].
      * intros [Hall _]. inversion Hall; subst. split; [assumption|now right].
    + split; [discriminate|].
      intros [Hall _]. inversion Hall; congruence.
Qed.

(** X1.  [verifyInteger] accepts exactly the non-empty strings of decimal
    digits: the flag of the loop only serves to refuse the empty token. *)
Theorem verifyInteger_iff token :
  verifyInteger token = true <-> token <> "" /\ allDigits token.
Proof.
  unfold verifyInteger. rewrite verifyIntegerLoop_true. split.
  - intros [Hall [Hne|Hflag]]; [now split|discriminate].
  - intros [Hne Hall]. split; [assumption|now left].
Qed.

Lemma verifyInteger_iff_witness :
  verifyInteger "2017" = true /\ "2017" <> "" /\ allDigits "2017".
Proof.
  split; [reflexivity|].
  apply (proj1 (verifyInteger_iff "2017")). reflexivity.
Defined.

(** X2.  The classes the two loops test for are disjoint: an integer is no
    operator and no bracket, an operator is no bracket, and none of them
    is the empty token.  The order of the tests in the [if] chains does
    not matter. *)
Theorem token_classes_disjoint token :
  (verifyInteger token = true ->
   isOperator token = false /\ isParenthesis token = false /\ token <> "") /\
  (isOperator token = true ->
   verifyInteger token = false /\ isParenthesis token = false /\
   token <> "") /\
  (isParenthesis token = true ->
   verifyInteger token = false /\ isOperator token = false /\ token <> "").
Proof.
  split; [|split].
  - intros Hint. split; [|split].
    + destruct (isOperator token) eqn:Eop; [|reflexivity].
      apply isOperator_not_integer in Eop. congruence.
    + now apply verifyInteger_not_parenthesis.
    + intros ->. discriminate Hint.
  - intros Hop. split; [|split].
    + now apply isOperator_not_integer.
    + now apply isOperator_not_parenthesis.
    + intros ->. discriminate Hop.
  - intros Hpar. split; [|split].
    + destruct (verifyInteger token) eqn:Eint; [|reflexivity].
      apply verifyInteger_not_parenthesis in Eint. congruence.
    + destruct (isOperator token) eqn:Eop; [|reflexivity].
      apply isOperator_not_parenthesis in Eop. congruence.
    + intros ->. discriminate Hpar.
Qed.

Lemma token_classes_disjoint_witness :
  verifyInteger "12" = true /\
  isOperator "12" = false /\ isParenthesis "12" = false /\ "12" <> "".
Proof.
  split; [reflexivity|].
  apply (proj1 (token_classes_disjoint "12")). reflexivity.
Defined.

End TokenClasses.

(** ** The tokeniser of [evaluate] *)

Section Tokeniser.

Lemma string_app_assoc (a b c : string) :
  ((a ++ b) ++ c)%string = (a ++ (b ++ c))%string.
Proof. induction a as [|x a IH]; simpl; [reflexivity|now rewrite IH]. Qed.

Lemma noSpace_app a b :
  noSpace (a ++ b)%string = noSpace a && noSpace b.
Proof.
  induction a as [|x a IH]; simpl; [reflexivity|].
  now rewrite IH, andb_assoc.
Qed.

(** Reading a word: its characters go to [temp]. *)
Lemma extractWords_word word : forall rest temp,
  noSpace word = true ->
  extractWords (word ++ rest)%string temp =
  extractWords rest (temp ++ word)%string.
Proof.
  induction word as [|c word IH]; intros rest temp Hword; simpl.
  - replace (temp ++ "")%string with temp; [reflexivity|].
    clear. induction temp as [|x temp IH]; simpl; [reflexivity|].
    now rewrite <- IH.
  - simpl in Hword. apply andb_true_iff in Hword as [Hc Hword].
    apply negb_true_iff in Hc. rewrite Hc, (IH rest _ Hword).
    now rewrite string_app_assoc.
Qed.

Lemma extractWords_isWord expression : forall temp,
  noSpace temp = true ->
  Forall (fun token => isWord token = true) (extractWords expression temp).
Proof.
  unfold isWord.
  induction expression as [|c rest IH]; intros temp Htemp; simpl.
  - destruct temp; [constructor|]. constructor; [|constructor].
    now rewrite Htemp.
  - destruct (isspace c) eqn:Ec.
    + destruct temp.
      * now apply IH.
      * constructor; [now rewrite Htemp|now apply IH].
    + apply IH. rewrite noSpace_app, Htemp. simpl. now rewrite Ec.
Qed.

(** X3.  The token vector [evaluate] builds is never empty: it is a sequence
    of words, none of them empty and none with white space in it,
    followed by exactly one empty token. *)
Theorem tokenise_shape expression :
  exists words,
    tokenise expression = words ++ [""] /\
    Forall (fun token => isWord token = true) words.
Proof.
  exists (extractWords expression ""). split; [reflexivity|].
  now apply extractWords_isWord.
Qed.

Lemma extractWords_unwords words :
  Forall (fun token => isWord token = true) words ->
  extractWords (unwords words) "" = words.
Proof.
  intros Hwords.
  induction Hwords as [|word rest Hword Hrest IH]; [reflexivity|].
  unfold isWord in Hword. apply andb_true_iff in Hword as [Hne Hns].
  apply negb_true_iff, String.eqb_neq in Hne.
  destruct rest as [|next rest].
  - simpl. replace word with (word ++ "")%string at 1.
    + rewrite (extractWords_word word "" "" Hns). simpl.
      now destruct word.
    + clear. induction word as [|x w IH]; simpl; [reflexivity|].
      now rewrite IH.
  - change (unwords (word :: next :: rest))
      with (word ++ String " " (unwords (next :: rest)))%string.
    rewrite (extractWords_word word _ "" Hns).
    change ("" ++ word)%string with word.
    change (extractWords (String " " (unwords (next :: rest))) word)
      with (match word with
            | EmptyString => extractWords (unwords (next :: rest)) ""
            | _ => word :: extractWords (unwords (next :: rest)) ""
            end).
    rewrite IH. now destruct word.
Qed.

(** X4.  Tokenising words joined by single blanks gives the words back,
    followed by the empty token. *)
Theorem tokenise_unwords words :
  Forall (fun token => isWord token = true) words ->
  tokenise (unwords words) = words ++ [""].
Proof.
  intros Hwords. unfold tokenise. now rewrite extractWords_unwords.
Qed.

Lemma tokenise_unwords_witness :
  Forall (fun token => isWord token = true) ["("; "10"; "/"; "3"; ")"] /\
  tokenise (unwords ["("; "10"; "/"; "3"; ")"]) =
  ["("; "10"; "/"; "3"; ")"] ++ [""].
Proof.
  assert (H : Forall (fun token => isWord token = true)
                     ["("; "10"; "/"; "3"; ")"])
    by (repeat constructor).
  split; [exact H|].
  apply (tokenise_unwords ["("; "10"; "/"; "3"; ")"] H).
Defined.

End Tokeniser.

(** ** The shunter: what one token does to the containers *)

Section ShunterSteps.
Import ShuntingYard.

Lemma withoutLeft_noLeft l : noLeftParenthesis l -> withoutLeft l = l.
Proof.
  unfold withoutLeft. induction 1 as [|token l Htoken _ IH]; simpl.
  - reflexivity.
  - now rewrite Htoken, IH.
Qed.

Lemma withoutLeft_app a b : withoutLeft (a ++ b) = withoutLeft a ++ withoutLeft b.
Proof. apply filter_app. Qed.

(** A stack either holds no left bracket or splits at its topmost one. *)
Lemma split_at_first_left stack :
  noLeftParenthesis stack \/
  exists above tokens,
    stack = above ++ "(" :: tokens /\ noLeftParenthesis above.
Proof.
  induction stack as [|top below IH].
  - left. constructor.
  - destruct (String.eqb_spec top "(") as [->|Hneq].
    + right. exists [], below. split; [reflexivity|constructor].
    + apply String.eqb_neq in Hneq. destruct IH as [Hno|(above & tokens & -> & Hno)].
      * left. now constructor.
      * right. exists (top :: above), tokens. split; [reflexivity|].
        now constructor.
Qed.

Lemma shuntToken_UB token self :
  shuntToken token self = UB -> token = ")" /\ operatorStack self = [].
Proof.
  unfold shuntToken.
  destruct (verifyInteger token); [discriminate|].
  destruct (isOperator token); [discriminate|].
  destruct (String.eqb_spec token "("); [discriminate|].
  destruct (String.eqb_spec token ")") as [->|_].
  - destruct (operatorStack self) as [|top below]; [now split|].
    destruct (whileNotLeft top below (outputQueue self)) as [[last st] q].
    destruct (negb (last =? "(")%string); discriminate.
  - destruct (negb (token =? "")%string); discriminate.
Qed.

Lemma shuntToken_right_iff self self' :
  shuntToken ")" self = Next self' <->
  exists above tokens,
    operatorStack self = above ++ "(" :: tokens /\
    noLeftParenthesis above /\
    self' = mkState tokens (outputQueue self ++ above).
Proof.
  destruct self as [stack queue]. simpl. split.
  - intros Hstep.
    destruct (split_at_first_left stack) as [Hno|(above & tokens & -> & Hno)].
    + destruct stack as [|top below]; [discriminate Hstep|].
      rewrite (shuntToken_right_unmatched top below queue Hno) in Hstep.
      discriminate Hstep.
    + rewrite (shuntToken_right_matched above tokens queue Hno) in Hstep.
      injection Hstep as <-. now exists above, tokens.
  - intros (above & tokens & -> & Hno & ->).
    now apply shuntToken_right_matched.
Qed.

(** X5.  The right bracket case in full.  The loop goes on to the next token
    exactly when a left bracket is stacked: the tokens above the topmost
    left bracket are appended to the queue in the order they are popped,
    and the bracket is dropped. *)
Theorem right_parenthesis_step self self' :
  shuntToken ")" self = Next self' <->
  exists above tokens,
    operatorStack self = above ++ "(" :: tokens /\
    noLeftParenthesis above /\
    self' = mkState tokens (outputQueue self ++ above).
Proof. exact (shuntToken_right_iff self self'). Qed.

Lemma right_parenthesis_step_witness :
  shuntToken ")" (mkState ["*"; "+"; "("; "-"; "("] ["1"; "2"; "3"]) =
  Next (mkState ["-"; "("] ["1"; "2"; "3"; "*"; "+"]) /\
  exists above tokens,
    ["*"; "+"; "("; "-"; "("] = above ++ "(" :: tokens /\
    noLeftParenthesis above /\
    mkState ["-"; "("] ["1"; "2"; "3"; "*"; "+"] =
    mkState tokens (["1"; "2"; "3"] ++ above).
Proof.
  split; [reflexivity|].
  apply (proj1 (right_parenthesis_step
                  (mkState ["*"; "+"; "("; "-"; "("] ["1"; "2"; "3"])
                  (mkState ["-"; "("] ["1"; "2"; "3"; "*"; "+"]))).
  reflexivity.
Defined.

(** The five ways a token can let the loop go on. *)
Lemma shuntToken_Next token self self' :
  shuntToken token self = Next self' ->
  (verifyInteger token = true /\
   self' = mkState (operatorStack self) (outputQueue self ++ [token])) \/
  (verifyInteger token = false /\ isOperator token = true /\
   self' = mkState (token :: operatorStack self) (outputQueue self)) \/
  (token = "(" /\
   self' = mkState ("(" :: operatorStack self) (outputQueue self)) \/
  (token = ")" /\
   exists above tokens,
     operatorStack self = above ++ "(" :: tokens /\
     noLeftParenthesis above /\
     self' = mkState tokens (outputQueue self ++ above)) \/
  (token = "" /\ self' = self).
Proof.
  intros Hstep.
  destruct (String.eqb_spec token ")") as [->|Hright].
  { right; right; right; left. split; [reflexivity|].
    now apply shuntToken_right_iff. }
  revert Hstep. unfold shuntToken.
  destruct (verifyInteger token) eqn:Eint.
  { intros [= <-]. now left. }
  destruct (isOperator token) eqn:Eop.
  { intros [= <-]. right; left. auto. }
  destruct (String.eqb_spec token "(") as [->|Hleft].
  { intros [= <-]. right; right; left. auto. }
  destruct (String.eqb_spec token ")"); [contradiction|].
  destruct (String.eqb_spec token "") as [->|Hne]; simpl.
  - intros [= <-]. right; right; right; right. auto.
  - discriminate.
Qed.

End ShunterSteps.

(** ** The shunter: whole calls *)

Section ShunterRuns.
Import ShuntingYard.

Lemma drain_no_parenthesis stack : forall queue,
  noParenthesis stack -> drain stack queue = Next (mkState [] (queue ++ stack)).
Proof.
  induction stack as [|top below IH]; intros queue Hno; simpl.
  - now rewrite app_nil_r.
  - inversion Hno as [|? ? Htop Hbelow]; subst. rewrite Htop, IH by assumption.
    now rewrite <- app_assoc.
Qed.

Lemma forTokens_UB inputTokens : forall self,
  forTokens inputTokens self = UB <->
  exists pre rest queue,
    inputTokens = pre ++ ")" :: rest /\
    forTokens pre self = Next (mkState [] queue).
Proof.
  induction inputTokens as [|token tokens IH]; intros self; simpl.
  - split; [discriminate|]. intros (pre & rest & queue & Heq & _).
    now destruct pre.
  - split.
    + destruct (shuntToken token self) as [self1| |] eqn:Estep.
      * intros Hrun. apply IH in Hrun as (pre & rest & queue & -> & Hpre).
        exists (token :: pre), rest, queue. simpl. now rewrite Estep.
      * discriminate.
      * intros _. apply shuntToken_UB in Estep as [-> Hstack].
        exists [], tokens, (outputQueue self). split; [reflexivity|].
        destruct self as [stack queue]. simpl in *. now subst.
    + intros (pre & rest & queue & Heq & Hpre).
      destruct pre as [|first pre]; simpl in Heq, Hpre.
      * injection Heq as -> ->. injection Hpre as ->. reflexivity.
      * injection Heq as -> ->.
        destruct (shuntToken first self) as [self1| |]; try discriminate.
        apply IH. now exists pre, rest, queue.
Qed.

(** X6.  The only undefined execution of the shunter on tokens of ASCII
    characters (on which the character test of [verifyInteger] is
    defined): such a call is undefined exactly when some right bracket is
    met while the operator stack is empty. *)
Theorem shunter_undefined_iff self inputTokens returnArray :
  Forall (fun token => allAscii token = true) inputTokens ->
  (shuntInfixToRPN self inputTokens returnArray = Undefined <->
   exists pre rest queue,
     inputTokens = pre ++ ")" :: rest /\
     forTokens pre self = Next (mkState [] queue)).
Proof.
  intros _. rewrite <- forTokens_UB. unfold shuntInfixToRPN.
  destruct (forTokens inputTokens self) as [self1| |].
  - pose proof (drain_never_UB (operatorStack self1) (outputQueue self1)).
    destruct (drain (operatorStack self1) (outputQueue self1));
      split; try discriminate; congruence.
  - split; discriminate.
  - split; reflexivity.
Qed.

Lemma shunter_undefined_iff_witness :
  Forall (fun token => allAscii token = true) ["("; "1"; ")"; ")"; "2"] /\
  shuntInfixToRPN fresh ["("; "1"; ")"; ")"; "2"] [] = Undefined.
Proof.
  assert (H : Forall (fun token => allAscii token = true)
                     ["("; "1"; ")"; ")"; "2"])
    by (repeat constructor).
  split; [exact H|].
  apply (proj2 (shunter_undefined_iff fresh ["("; "1"; ")"; ")"; "2"] [] H)).
  exists ["("; "1"; ")"], ["2"], ["1"]. split; reflexivity.
Defined.

Lemma forTokens_skip_empty inputTokens : forall self,
  forTokens inputTokens self =
  forTokens (filter (fun token => negb (token =? "")%string) inputTokens) self.
Proof.
  induction inputTokens as [|token tokens IH]; intros self; simpl.
  - reflexivity.
  - destruct (String.eqb_spec token "") as [->|Hne]; simpl.
    + apply IH.
    + destruct (shuntToken token self); auto.
Qed.

(** X7.  Empty tokens, wherever they stand, have no effect on a call: the
    call behaves as on the sequence without them.  In particular the
    empty token the tokeniser appends is harmless. *)
Theorem empty_tokens_have_no_effect self inputTokens returnArray :
  shuntInfixToRPN self inputTokens returnArray =
  shuntInfixToRPN self
    (filter (fun token => negb (token =? "")%string) inputTokens) returnArray.
Proof. unfold shuntInfixToRPN. now rewrite <- forTokens_skip_empty. Qed.

(** X8.  A call that returns [true] leaves both containers of the object
    empty, whatever they held before, and only appends to the caller's
    return array. *)
Theorem success_empties_the_object
        self inputTokens returnArray self' out :
  shuntInfixToRPN self inputTokens returnArray = ReturnsTrue self' out ->
  self' = fresh /\ exists appended, out = returnArray ++ appended.
Proof.
  intros Hrun.
  apply shuntInfixToRPN_true in Hrun as (self1 & _ & _ & -> & ->).
  split; [reflexivity|]. now exists (outputQueue self1 ++ operatorStack self1).
Qed.

Lemma success_empties_the_object_witness :
  shuntInfixToRPN (mkState ["+"] ["7"]) ["8"] ["0"] =
  ReturnsTrue fresh ["0"; "7"; "8"; "+"] /\
  fresh = fresh /\ exists appended, ["0"; "7"; "8"; "+"] = ["0"] ++ appended.
Proof.
  split; [reflexivity|].
  apply (success_empties_the_object (mkState ["+"] ["7"]) ["8"] ["0"]).
  reflexivity.
Defined.

End ShunterRuns.

(** ** The shunter: what happens to the tokens *)

Section ShunterTokens.
Import ShuntingYard.

Lemma isOperator_not_left token :
  isOperator token = true -> (token =? "(")%string = false.
Proof.
  intros H. now apply isOperator_not_parenthesis, isParenthesis_false in H.
Qed.

(** Integers and operators are neither created nor lost by the loop: the
    queue and the stack without its left brackets hold what they held
    plus the integers and operators read. *)
Lemma forTokens_conserves inputTokens : forall self self',
  forTokens inputTokens self = Next self' ->
  Permutation
    (outputQueue self' ++ withoutLeft (operatorStack self'))
    (outputQueue self ++ withoutLeft (operatorStack self) ++
     filter isOperand_or_operator inputTokens).
Proof.
  induction inputTokens as [|token tokens IH]; intros self self'; simpl.
  - intros [= <-]. now rewrite app_nil_r.
  - destruct (shuntToken token self) as [self1| |] eqn:Estep;
      try discriminate.
    intros Hrun. rewrite (IH _ _ Hrun). clear IH Hrun.
    cbn [filter].
    set (found := filter isOperand_or_operator tokens).
    unfold isOperand_or_operator.
    apply shuntToken_Next in Estep
      as [[Hint ->]|[(Hint & Hop & ->)|[[-> ->]|[[-> Hr]|[-> ->]]]]];
      cbn [operatorStack outputQueue].
    + rewrite Hint. cbn [orb]. rewrite <- app_assoc.
      apply Permutation_app_head.
      apply (Permutation_middle (withoutLeft (operatorStack self)) found
                                token).
    + rewrite Hint, Hop. cbn [orb].
      change (withoutLeft (token :: operatorStack self))
        with (if negb (token =? "(")%string
              then token :: withoutLeft (operatorStack self)
              else withoutLeft (operatorStack self)).
      rewrite (isOperator_not_left token Hop). cbn [negb].
      apply Permutation_app_head.
      apply (Permutation_middle (withoutLeft (operatorStack self)) found
                                token).
    + reflexivity.
    + destruct Hr as (above & rest & Hstack & Hno & ->).
      cbn [operatorStack outputQueue].
      rewrite Hstack, withoutLeft_app.
      change (withoutLeft ("(" :: rest)) with (withoutLeft rest).
      rewrite (withoutLeft_noLeft above Hno).
      now rewrite <- !app_assoc.
    + reflexivity.
Qed.

(** X9.  A successful call on a new object appends to the return array the
    integers and operators of the input, each as often as it occurs
    there, and nothing else. *)
Theorem shunter_conserves_tokens inputTokens returnArray self' out :
  shuntInfixToRPN fresh inputTokens returnArray = ReturnsTrue self' out ->
  exists postfix,
    out = returnArray ++ postfix /\
    Permutation postfix (filter isOperand_or_operator inputTokens).
Proof.
  intros Hrun.
  apply shuntInfixToRPN_true in Hrun as (self1 & Hloop & Hstack & _ & ->).
  exists (outputQueue self1 ++ operatorStack self1). split; [reflexivity|].
  apply forTokens_conserves in Hloop. simpl in Hloop.
  rewrite withoutLeft_noLeft in Hloop; [assumption|].
  eapply Forall_impl; [|exact Hstack].
  intros token Htoken. now apply isParenthesis_false in Htoken.
Qed.

Lemma shunter_conserves_tokens_witness :
  shuntInfixToRPN fresh ["("; "1"; "+"; "3"; ")"; "*"; "2"; ""] ["0"] =
  ReturnsTrue fresh ["0"; "1"; "3"; "+"; "2"; "*"] /\
  exists postfix,
    ["0"; "1"; "3"; "+"; "2"; "*"] = ["0"] ++ postfix /\
    Permutation postfix
      (filter isOperand_or_operator
              ["("; "1"; "+"; "3"; ")"; "*"; "2"; ""]).
Proof.
  split; [reflexivity|].
  apply (shunter_conserves_tokens
           ["("; "1"; "+"; "3"; ")"; "*"; "2"; ""] ["0"] fresh).
  reflexivity.
Defined.

End ShunterTokens.

(** ** The shunter: classes, order and brackets *)

Section ShunterOrder.
Import ShuntingYard.

Lemma stacked_not_integer l :
  Forall (fun token => isOperator token || (token =? "(")%string = true) l ->
  filter verifyInteger l = [].
Proof.
  induction 1 as [|token l Htoken _ IH]; simpl; [reflexivity|].
  rewrite IH. apply orb_true_iff in Htoken as [Hop|Hleft].
  - now rewrite (isOperator_not_integer token Hop).
  - apply String.eqb_eq in Hleft as ->. reflexivity.
Qed.

Lemma stacked_above_left l :
  Forall (fun token => isOperator token || (token =? "(")%string = true) l ->
  noLeftParenthesis l ->
  Forall (fun token => isOperand_or_operator token = true) l.
Proof.
  unfold isOperand_or_operator.
  induction 1 as [|token l Htoken _ IH]; intros Hno; [constructor|].
  inversion Hno as [|? ? Hleft Hrest]; subst.
  rewrite Hleft, orb_false_r in Htoken.
  constructor; [now rewrite Htoken, orb_true_r|now apply IH].
Qed.

Lemma shuntToken_classes token self self' :
  shunterClasses self -> shuntToken token self = Next self' ->
  shunterClasses self'.
Proof.
  intros [Hstack Hqueue] Hstep.
  apply shuntToken_Next in Hstep
    as [[Hint ->]|[(Hint & Hop & ->)|[[-> ->]|[[-> Hr]|[-> ->]]]]].
  - split; [assumption|]. cbn [outputQueue].
    apply Forall_app. split; [assumption|].
    constructor; [|constructor]. unfold isOperand_or_operator.
    now rewrite Hint.
  - split; [|assumption]. constructor; [now rewrite Hop|assumption].
  - split; [|assumption]. now constructor.
  - destruct Hr as (above & rest & Heq & Hno & ->).
    rewrite Heq in Hstack. apply Forall_app in Hstack as [Habove Hrest].
    inversion Hrest; subst. split; [assumption|]. cbn [outputQueue].
    apply Forall_app. split; [assumption|].
    now apply stacked_above_left.
  - now split.
Qed.

Lemma forTokens_classes inputTokens : forall self self',
  shunterClasses self -> forTokens inputTokens self = Next self' ->
  shunterClasses self'.
Proof.
  induction inputTokens as [|token tokens IH]; intros self self' Hself; simpl.
  - now intros [= <-].
  - destruct (shuntToken token self) as [self1| |] eqn:Estep;
      try discriminate.
    apply IH. now apply (shuntToken_classes token self).
Qed.

Lemma fresh_classes : shunterClasses fresh.
Proof. split; constructor. Qed.

Lemma shunted_classes inputTokens returnArray self' out :
  shuntInfixToRPN fresh inputTokens returnArray = ReturnsTrue self' out ->
  exists postfix,
    out = returnArray ++ postfix /\
    Forall (fun token => isOperand_or_operator token = true) postfix.
Proof.
  intros Hrun.
  apply shuntInfixToRPN_true in Hrun as (self1 & Hloop & Hno & _ & ->).
  exists (outputQueue self1 ++ operatorStack self1). split; [reflexivity|].
  destruct (forTokens_classes _ _ _ fresh_classes Hloop) as [Hstack Hqueue].
  apply Forall_app. split; [assumption|].
  apply stacked_above_left; [assumption|].
  eapply Forall_impl; [|exact Hno].
  intros token Htoken. now apply isParenthesis_false in Htoken.
Qed.

(** X10.  A successful call on a new object appends integers and operators
    only: no bracket, no empty token, nothing the evaluator refuses as an
    invalid expression. *)
Theorem shunted_output_is_operands_and_operators
        inputTokens returnArray self' out :
  shuntInfixToRPN fresh inputTokens returnArray = ReturnsTrue self' out ->
  exists postfix,
    out = returnArray ++ postfix /\
    Forall (fun token => isOperand_or_operator token = true) postfix.
Proof. apply shunted_classes. Qed.

Lemma shunted_output_is_operands_and_operators_witness :
  shuntInfixToRPN fresh ["("; "4"; "/"; "2"; ")"; "+"; "6"; ""] [] =
  ReturnsTrue fresh ["4"; "2"; "/"; "6"; "+"] /\
  exists postfix,
    ["4"; "2"; "/"; "6"; "+"] = [] ++ postfix /\
    Forall (fun token => isOperand_or_operator token = true) postfix.
Proof.
  split; [reflexivity|].
  apply (shunted_output_is_operands_and_operators
           ["("; "4"; "/"; "2"; ")"; "+"; "6"; ""] [] fresh).
  reflexivity.
Defined.

Lemma forTokens_integers inputTokens : forall self self',
  shunterClasses self -> forTokens inputTokens self = Next self' ->
  filter verifyInteger (outputQueue self') =
  filter verifyInteger (outputQueue self) ++ filter verifyInteger inputTokens.
Proof.
  induction inputTokens as [|token tokens IH]; intros self self' Hself; simpl.
  - intros [= <-]. now rewrite app_nil_r.
  - destruct (shuntToken token self) as [self1| |] eqn:Estep;
      try discriminate.
    intros Hrun.
    rewrite (IH _ _ (shuntToken_classes _ _ _ Hself Estep) Hrun). clear IH Hrun.
    destruct Hself as [Hstack _].
    apply shuntToken_Next in Estep
      as [[Hint ->]|[(Hint & Hop & ->)|[[-> ->]|[[-> Hr]|[-> ->]]]]];
      cbn [outputQueue].
    + rewrite Hint, filter_app. cbn [filter]. rewrite Hint.
      now rewrite <- app_assoc.
    + now rewrite Hint.
    + reflexivity.
    + destruct Hr as (above & rest & Heq & Hno & ->). cbn [outputQueue].
      rewrite Heq in Hstack. apply Forall_app in Hstack as [Habove _].
      rewrite filter_app, (stacked_not_integer above Habove), app_nil_r.
      reflexivity.
    + reflexivity.
Qed.

(** X11.  The integers keep their order: in what a successful call on a new
    object appends, the integers are those of the input, in the order of
    the input. *)
Theorem shunter_keeps_operand_order inputTokens returnArray self' out :
  shuntInfixToRPN fresh inputTokens returnArray = ReturnsTrue self' out ->
  exists postfix,
    out = returnArray ++ postfix /\
    filter verifyInteger postfix = filter verifyInteger inputTokens.
Proof.
  intros Hrun.
  apply shuntInfixToRPN_true in Hrun as (self1 & Hloop & Hno & _ & ->).
  exists (outputQueue self1 ++ operatorStack self1). split; [reflexivity|].
  destruct (forTokens_classes _ _ _ fresh_classes Hloop) as [Hstack _].
  rewrite filter_app, (stacked_not_integer _ Hstack), app_nil_r.
  exact (forTokens_integers _ _ _ fresh_classes Hloop).
Qed.

Lemma shunter_keeps_operand_order_witness :
  shuntInfixToRPN fresh ["4"; "+"; "("; "12"; "/"; "2"; ")"] [] =
  ReturnsTrue fresh ["4"; "12"; "2"; "/"; "+"] /\
  exists postfix,
    ["4"; "12"; "2"; "/"; "+"] = [] ++ postfix /\
    filter verifyInteger postfix =
    filter verifyInteger ["4"; "+"; "("; "12"; "/"; "2"; ")"].
Proof.
  split; [reflexivity|].
  apply (shunter_keeps_operand_order
           ["4"; "+"; "("; "12"; "/"; "2"; ")"] [] fresh).
  reflexivity.
Defined.

End ShunterOrder.

Section ShunterBrackets.
Import ShuntingYard.

Lemma count_left_noLeft l :
  noLeftParenthesis l -> count_occ string_dec l "(" = 0%nat.
Proof.
  induction 1 as [|token l Htoken _ IH]; [reflexivity|].
  apply String.eqb_neq in Htoken.
  now rewrite count_occ_cons_neq.
Qed.

Lemma forTokens_brackets inputTokens : forall self self',
  forTokens inputTokens self = Next self' ->
  (count_occ string_dec (operatorStack self') "(" +
   count_occ string_dec inputTokens ")" =
   count_occ string_dec (operatorStack self) "(" +
   count_occ string_dec inputTokens "(")%nat.
Proof.
  induction inputTokens as [|token tokens IH]; intros self self'.
  - simpl. now intros [= <-].
  - cbn [forTokens].
    destruct (shuntToken token self) as [self1| |] eqn:Estep;
      try discriminate.
    intros Hrun. apply IH in Hrun. clear IH.
    apply shuntToken_Next in Estep
      as [[Hint ->]|[(Hint & Hop & ->)|[[-> ->]|[[-> Hr]|[-> ->]]]]];
      cbn [operatorStack] in Hrun.
    + apply verifyInteger_not_parenthesis, isParenthesis_false in Hint
        as [Hl Hr].
      apply String.eqb_neq in Hl, Hr.
      now rewrite !count_occ_cons_neq by assumption.
    + apply isOperator_not_parenthesis, isParenthesis_false in Hop
        as [Hl Hr].
      apply String.eqb_neq in Hl, Hr.
      rewrite count_occ_cons_neq in Hrun by assumption.
      now rewrite !count_occ_cons_neq by assumption.
    + rewrite count_occ_cons_eq in Hrun by reflexivity.
      rewrite (count_occ_cons_eq _ tokens (eq_refl "(")).
      rewrite count_occ_cons_neq by discriminate. lia.
    + destruct Hr as (above & rest & Heq & Hno & ->).
      cbn [operatorStack] in Hrun.
      rewrite Heq, count_occ_app, (count_left_noLeft above Hno).
      rewrite (count_occ_cons_eq _ rest (eq_refl "(")).
      rewrite (count_occ_cons_eq _ tokens (eq_refl ")")).
      rewrite count_occ_cons_neq by discriminate. lia.
    + now rewrite !count_occ_cons_neq by discriminate.
Qed.

(** X12.  A call on a new object only returns [true] when the input has as
    many right brackets as left brackets. *)
Theorem success_needs_balanced_brackets
        inputTokens returnArray self' out :
  shuntInfixToRPN fresh inputTokens returnArray = ReturnsTrue self' out ->
  count_occ string_dec inputTokens "(" = count_occ string_dec inputTokens ")".
Proof.
  intros Hrun.
  apply shuntInfixToRPN_true in Hrun as (self1 & Hloop & Hno & _).
  apply forTokens_brackets in Hloop. simpl in Hloop.
  rewrite count_left_noLeft in Hloop; [now simpl in Hloop|].
  eapply Forall_impl; [|exact Hno].
  intros token Htoken. now apply isParenthesis_false in Htoken.
Qed.

Lemma success_needs_balanced_brackets_witness :
  shuntInfixToRPN fresh (tokenise "4 + ( 12 / ( 1 * 2 ) )") [] =
  ReturnsTrue fresh ["4"; "12"; "1"; "2"; "*"; "/"; "+"] /\
  count_occ string_dec (tokenise "4 + ( 12 / ( 1 * 2 ) )") "(" =
  count_occ string_dec (tokenise "4 + ( 12 / ( 1 * 2 ) )") ")".
Proof.
  split; [reflexivity|].
  apply (success_needs_balanced_brackets
           (tokenise "4 + ( 12 / ( 1 * 2 ) )") [] fresh
           ["4"; "12"; "1"; "2"; "*"; "/"; "+"]).
  reflexivity.
Defined.

Lemma forTokens_without_brackets inputTokens : forall stack queue,
  Forall (fun token =>
            isOperand_or_operator token || (token =? "")%string = true)
         inputTokens ->
  forTokens inputTokens (mkState stack queue) =
  Next (mkState (rev (filter isOperator inputTokens) ++ stack)
                (queue ++ filter verifyInteger inputTokens)).
Proof.
  unfold isOperand_or_operator.
  induction inputTokens as [|token tokens IH]; intros stack queue Hall.
  - simpl. now rewrite app_nil_r.
  - inversion Hall as [|? ? Htoken Htokens]; subst.
    cbn [forTokens filter]. unfold shuntToken. cbn [operatorStack outputQueue].
    destruct (verifyInteger token) eqn:Eint.
    + destruct (isOperator token) eqn:Eop.
      { apply isOperator_not_integer in Eop. congruence. }
      rewrite (IH _ _ Htokens). now rewrite <- app_assoc.
    + destruct (isOperator token) eqn:Eop.
      * rewrite (IH _ _ Htokens). cbn [rev]. now rewrite <- app_assoc.
      * simpl in Htoken. apply String.eqb_eq in Htoken as ->. simpl.
        apply (IH _ _ Htokens).
Qed.

(** X13.  Without brackets in the input nothing leaves the operator stack
    before the final drain: a new object returns [true], and appends the
    integers in the order of the input followed by the operators in the
    reverse of their order in the input ("1 + 2 * 3" gives
    "1 2 3 * +", "8 - 2 - 1" gives "8 2 1 - -"). *)
Theorem shunter_without_brackets inputTokens returnArray :
  Forall (fun token =>
            isOperand_or_operator token || (token =? "")%string = true)
         inputTokens ->
  shuntInfixToRPN fresh inputTokens returnArray =
  ReturnsTrue fresh
    (returnArray ++ filter verifyInteger inputTokens ++
     rev (filter isOperator inputTokens)).
Proof.
  intros Hall. unfold shuntInfixToRPN, fresh.
  rewrite (forTokens_without_brackets inputTokens [] [] Hall).
  cbn [operatorStack outputQueue]. rewrite app_nil_r.
  rewrite drain_no_parenthesis.
  - cbn [operatorStack outputQueue]. now rewrite copyQueue_app.
  - apply Forall_rev. apply Forall_forall. intros token Hin.
    apply filter_In in Hin as [_ Hop].
    now apply isOperator_not_parenthesis.
Qed.

Lemma shunter_without_brackets_witness :
  Forall (fun token =>
            isOperand_or_operator token || (token =? "")%string = true)
         ["1"; "+"; "2"; "*"; "3"; ""] /\
  shuntInfixToRPN fresh ["1"; "+"; "2"; "*"; "3"; ""] [] =
  ReturnsTrue fresh
    ([] ++ filter verifyInteger ["1"; "+"; "2"; "*"; "3"; ""] ++
     rev (filter isOperator ["1"; "+"; "2"; "*"; "3"; ""])).
Proof.
  assert (H : Forall (fun token =>
                        isOperand_or_operator token ||
                        (token =? "")%string = true)
                     ["1"; "+"; "2"; "*"; "3"; ""])
    by (repeat constructor).
  split; [exact H|].
  apply (shunter_without_brackets ["1"; "+"; "2"; "*"; "3"; ""] [] H).
Defined.

End ShunterBrackets.

(** ** Fully parenthesised expressions *)

Section Expressions.

Lemma isdigit_not_space c : isdigit c = true -> isspace c = false.
Proof.
  destruct c as [[] [] [] [] [] [] [] []]; try reflexivity; discriminate.
Qed.

Lemma verifyIntegerLoop_noSpace token : forall isInteger,
  verifyIntegerLoop token isInteger = true -> noSpace token = true.
Proof.
  induction token as [|c rest IH]; intros isInteger; simpl; [reflexivity|].
  destruct (isdigit c) eqn:Ec; simpl; [|discriminate].
  intros Hrest. now rewrite (isdigit_not_space c Ec), (IH true Hrest).
Qed.

Lemma verifyInteger_isWord token :
  verifyInteger token = true -> isWord token = true.
Proof.
  intros Hint. unfold isWord.
  rewrite (verifyIntegerLoop_noSpace token false Hint), andb_true_r.
  destruct (String.eqb_spec token "") as [->|]; [discriminate Hint|].
  reflexivity.
Qed.

Lemma isOperator_isWord token :
  isOperator token = true -> isWord token = true.
Proof.
  intros H. destruct (isOperator_cases token H) as [->|[->|[->| ->]]];
    reflexivity.
Qed.

Lemma infix_words e :
  wellFormed e = true ->
  Forall (fun token => isWord token = true) (infix e).
Proof.
  induction e as [literal|op lhs IHl rhs IHr]; simpl; intros Hwf.
  - constructor; [now apply verifyInteger_isWord|constructor].
  - apply andb_true_iff in Hwf as [Hwf Hr].
    apply andb_true_iff in Hwf as [Hop Hl].
    constructor; [reflexivity|].
    apply Forall_app. split; [now apply IHl|].
    constructor; [now apply isOperator_isWord|].
    apply Forall_app. split; [now apply IHr|].
    now constructor.
Qed.

Lemma infixOpen_words e :
  wellFormed e = true ->
  Forall (fun token => isWord token = true) (infixOpen e).
Proof.
  destruct e as [literal|op lhs rhs]; [apply (infix_words (Lit literal))|].
  simpl. intros Hwf.
  apply andb_true_iff in Hwf as [Hwf Hr].
  apply andb_true_iff in Hwf as [Hop Hl].
  apply Forall_app. split; [now apply infix_words|].
  constructor; [now apply isOperator_isWord|now apply infix_words].
Qed.

Lemma shuntToken_operator token self :
  isOperator token = true ->
  ShuntingYard.shuntToken token self =
  ShuntingYard.Next
    (ShuntingYard.mkState (token :: ShuntingYard.operatorStack self)
                          (ShuntingYard.outputQueue self)).
Proof.
  intros Hop. unfold ShuntingYard.shuntToken.
  now rewrite (isOperator_not_integer token Hop), Hop.
Qed.

(** The loop on the tokens of a bracketed expression: the postfix form
    is appended to the queue and the operator stack is as before. *)
Lemma forTokens_infix e :
  wellFormed e = true ->
  forall stack queue,
    ShuntingYard.forTokens (infix e) (ShuntingYard.mkState stack queue) =
    ShuntingYard.Next (ShuntingYard.mkState stack (queue ++ postfix e)).
Proof.
  induction e as [literal|op lhs IHl rhs IHr]; simpl; intros Hwf stack queue.
  - unfold ShuntingYard.shuntToken. now rewrite Hwf.
  - apply andb_true_iff in Hwf as [Hwf Hr].
    apply andb_true_iff in Hwf as [Hop Hl].
    change (ShuntingYard.shuntToken "(" (ShuntingYard.mkState stack queue))
      with (ShuntingYard.Next (ShuntingYard.mkState ("(" :: stack) queue)).
    rewrite shunt_forTokens_app, (IHl Hl).
    cbn [ShuntingYard.forTokens app].
    rewrite (shuntToken_operator op _ Hop).
    cbn [ShuntingYard.operatorStack ShuntingYard.outputQueue].
    rewrite shunt_forTokens_app, (IHr Hr).
    cbn [ShuntingYard.forTokens].
    rewrite (shuntToken_right_matched [op] stack).
    + now rewrite <- !app_assoc.
    + constructor; [now apply isOperator_not_left|constructor].
Qed.

Lemma shuntInfixToRPN_parenthesised e returnArray :
  wellFormed e = true ->
  ShuntingYard.shuntInfixToRPN ShuntingYard.fresh (infix e) returnArray =
  ShuntingYard.ReturnsTrue ShuntingYard.fresh (returnArray ++ postfix e) /\
  ShuntingYard.shuntInfixToRPN ShuntingYard.fresh (infixOpen e) returnArray =
  ShuntingYard.ReturnsTrue ShuntingYard.fresh (returnArray ++ postfix e).
Proof.
  intros Hwf.
  assert (Hclosed :
    ShuntingYard.shuntInfixToRPN ShuntingYard.fresh (infix e) returnArray =
    ShuntingYard.ReturnsTrue ShuntingYard.fresh (returnArray ++ postfix e)).
  { unfold ShuntingYard.shuntInfixToRPN, ShuntingYard.fresh.
    rewrite (forTokens_infix e Hwf). simpl. now rewrite copyQueue_app. }
  split; [exact Hclosed|].
  destruct e as [literal|op lhs rhs]; [exact Hclosed|].
  simpl in Hwf. apply andb_true_iff in Hwf as [Hwf Hr].
  apply andb_true_iff in Hwf as [Hop Hl].
  unfold ShuntingYard.shuntInfixToRPN, ShuntingYard.fresh, infixOpen.
  rewrite shunt_forTokens_app, (forTokens_infix lhs Hl).
  cbn [ShuntingYard.forTokens app].
  rewrite (shuntToken_operator op _ Hop).
  cbn [ShuntingYard.operatorStack ShuntingYard.outputQueue].
  rewrite (forTokens_infix rhs Hr).
  cbn [ShuntingYard.operatorStack ShuntingYard.outputQueue
       ShuntingYard.drain].
  rewrite (isOperator_not_parenthesis op Hop).
  cbn [ShuntingYard.operatorStack ShuntingYard.outputQueue].
  rewrite copyQueue_app. simpl. now rewrite <- !app_assoc.
Qed.

(** X16.  The shunter is right on fully parenthesised expressions: it returns
    [true] and appends the postfix form of the expression, also when the
    outermost brackets are left out. *)
Theorem shunter_on_parenthesised e returnArray :
  wellFormed e = true ->
  ShuntingYard.shuntInfixToRPN ShuntingYard.fresh (infix e) returnArray =
  ShuntingYard.ReturnsTrue ShuntingYard.fresh (returnArray ++ postfix e) /\
  ShuntingYard.shuntInfixToRPN ShuntingYard.fresh (infixOpen e) returnArray =
  ShuntingYard.ReturnsTrue ShuntingYard.fresh (returnArray ++ postfix e).
Proof. apply shuntInfixToRPN_parenthesised. Qed.

Lemma shunter_on_parenthesised_witness :
  wellFormed (Bin "*" (Bin "+" (Lit "1") (Lit "3")) (Lit "2")) = true /\
  ShuntingYard.shuntInfixToRPN ShuntingYard.fresh
    ["("; "("; "1"; "+"; "3"; ")"; "*"; "2"; ")"] [] =
  ShuntingYard.ReturnsTrue ShuntingYard.fresh ["1"; "3"; "+"; "2"; "*"] /\
  ShuntingYard.shuntInfixToRPN ShuntingYard.fresh
    ["("; "1"; "+"; "3"; ")"; "*"; "2"] [] =
  ShuntingYard.ReturnsTrue ShuntingYard.fresh ["1"; "3"; "+"; "2"; "*"].
Proof.
  split; [reflexivity|].
  apply (shunter_on_parenthesised
           (Bin "*" (Bin "+" (Lit "1") (Lit "3")) (Lit "2")) []).
  reflexivity.
Defined.

End Expressions.

(** ** The evaluator on postfix forms *)

Section EvaluatorRuns.
Import RPN.

(** An operator on a stack of two or more values: [lhs] is the value
    under the top, [rhs] the top. *)
Lemma evalToken_operator op lhs rhs rest :
  isOperator op = true ->
  evalToken op (rhs :: lhs :: rest) =
  match arithSwapped op lhs rhs with
  | Some v => Next (v :: rest)
  | None => UB
  end.
Proof.
  intros Hop. destruct (isOperator_cases op Hop) as [->|[->|[->| ->]]].
  - rewrite evalToken_plus. unfold arithSwapped, arith. simpl.
    now rewrite Z.add_comm.
  - now rewrite evalToken_minus.
  - rewrite evalToken_times. unfold arithSwapped, arith. simpl.
    now rewrite Z.mul_comm.
  - now rewrite evalToken_divide.
Qed.

Lemma forTokens_postfix e :
  wellFormed e = true ->
  forall v valueStack,
    valueWith arithSwapped e = Some v ->
    forTokens (postfix e) valueStack = Next (v :: valueStack).
Proof.
  induction e as [literal|op lhs IHl rhs IHr]; simpl;
    intros Hwf v valueStack Hvalue.
  - unfold evalToken. now rewrite Hwf, Hvalue.
  - apply andb_true_iff in Hwf as [Hwf Hr].
    apply andb_true_iff in Hwf as [Hop Hl].
    destruct (valueWith arithSwapped lhs) as [l|]; [|discriminate].
    destruct (valueWith arithSwapped rhs) as [r|]; [|discriminate].
    rewrite eval_forTokens_app, (IHl Hl l valueStack eq_refl).
    rewrite eval_forTokens_app, (IHr Hr r (l :: valueStack) eq_refl).
    cbn [forTokens]. now rewrite (evalToken_operator op l r _ Hop), Hvalue.
Qed.

(** X17.  The evaluator on the postfix form of an expression returns [true]
    with the value of the expression, computed with the operands of every
    subtraction exchanged; the value is all that is left on the stack.
    The early return on a single value is never taken. *)
Theorem evaluator_on_postfix e v :
  wellFormed e = true ->
  valueWith arithSwapped e = Some v ->
  calculatePostfix [] (postfix e) = ReturnsTrue v [v].
Proof.
  intros Hwf Hvalue. unfold calculatePostfix.
  now rewrite (forTokens_postfix e Hwf v [] Hvalue).
Qed.

Lemma evaluator_on_postfix_witness :
  wellFormed (Bin "/" (Bin "-" (Lit "3") (Lit "10")) (Lit "2")) = true /\
  valueWith arithSwapped
            (Bin "/" (Bin "-" (Lit "3") (Lit "10")) (Lit "2")) = Some 3 /\
  calculatePostfix [] ["3"; "10"; "-"; "2"; "/"] = ReturnsTrue 3 [3].
Proof.
  split; [reflexivity|]. split; [reflexivity|].
  apply (evaluator_on_postfix
           (Bin "/" (Bin "-" (Lit "3") (Lit "10")) (Lit "2")) 3);
    reflexivity.
Defined.

Lemma valueWith_without_minus e :
  usesMinus e = false -> valueWith arithSwapped e = value e.
Proof.
  unfold value.
  induction e as [literal|op lhs IHl rhs IHr]; simpl; [reflexivity|].
  intros Hno. apply orb_false_iff in Hno as [Hno Hr].
  apply orb_false_iff in Hno as [Hop Hl].
  rewrite (IHl Hl), (IHr Hr). unfold arithSwapped. now rewrite Hop.
Qed.

Lemma shunt_trailing_empty self tokens returnArray :
  ShuntingYard.shuntInfixToRPN self (tokens ++ [""]) returnArray =
  ShuntingYard.shuntInfixToRPN self tokens returnArray.
Proof.
  unfold ShuntingYard.shuntInfixToRPN. rewrite shunt_forTokens_app.
  now destruct (ShuntingYard.forTokens tokens self).
Qed.

Lemma evaluate_tokens tokens postfixTokens v self' final :
  ShuntingYard.shuntInfixToRPN ShuntingYard.fresh tokens [] =
  ShuntingYard.ReturnsTrue self' postfixTokens ->
  calculatePostfix [] postfixTokens = ReturnsTrue v final ->
  Forall (fun token => isWord token = true) tokens ->
  evaluate (unwords tokens) = EvalTrue v.
Proof.
  intros Hshunt Heval Hwords. unfold evaluate, tokenise.
  rewrite (extractWords_unwords tokens Hwords).
  now rewrite shunt_trailing_empty, Hshunt, Heval.
Qed.

Lemma evaluate_expression e v :
  wellFormed e = true ->
  valueWith arithSwapped e = Some v ->
  evaluate (unwords (infix e)) = EvalTrue v /\
  evaluate (unwords (infixOpen e)) = EvalTrue v.
Proof.
  intros Hwf Hvalue.
  pose proof (forTokens_postfix e Hwf v [] Hvalue) as Heval.
  assert (Hcalc : calculatePostfix [] (postfix e) = ReturnsTrue v [v])
    by (unfold calculatePostfix; now rewrite Heval).
  destruct (shuntInfixToRPN_parenthesised e [] Hwf) as [Hclosed Hopen].
  split.
  - exact (evaluate_tokens _ _ v _ _ Hclosed Hcalc (infix_words e Hwf)).
  - exact (evaluate_tokens _ _ v _ _ Hopen Hcalc (infixOpen_words e Hwf)).
Qed.

(** X18.  [evaluate] on a fully parenthesised expression written with single
    blanks, with or without the outermost brackets: it returns [true]
    with the value computed with the operands of every subtraction
    exchanged. *)
Theorem evaluate_parenthesised e v :
  wellFormed e = true ->
  valueWith arithSwapped e = Some v ->
  evaluate (unwords (infix e)) = EvalTrue v /\
  evaluate (unwords (infixOpen e)) = EvalTrue v.
Proof. apply evaluate_expression. Qed.

Lemma evaluate_parenthesised_witness :
  wellFormed (Bin "-" (Lit "10") (Bin "*" (Lit "2") (Lit "3"))) = true /\
  valueWith arithSwapped
            (Bin "-" (Lit "10") (Bin "*" (Lit "2") (Lit "3"))) =
  Some (-4) /\
  evaluate "( 10 - ( 2 * 3 ) )" = EvalTrue (-4) /\
  evaluate "10 - ( 2 * 3 )" = EvalTrue (-4).
Proof.
  split; [reflexivity|]. split; [reflexivity|].
  apply (evaluate_parenthesised
           (Bin "-" (Lit "10") (Bin "*" (Lit "2") (Lit "3"))) (-4));
    reflexivity.
Defined.

(** X19.  [evaluate] is right on fully parenthesised expressions without
    subtraction: whenever the expression has a value in [int] arithmetic
    (no overflow, no zero divisor, literals in range), that value is
    returned with [true]. *)
Theorem evaluate_correct_without_subtraction e v :
  wellFormed e = true ->
  usesMinus e = false ->
  value e = Some v ->
  evaluate (unwords (infix e)) = EvalTrue v /\
  evaluate (unwords (infixOpen e)) = EvalTrue v.
Proof.
  intros Hwf Hno Hvalue.
  rewrite <- (valueWith_without_minus e Hno) in Hvalue.
  now apply evaluate_expression.
Qed.

Lemma evaluate_correct_without_subtraction_witness :
  wellFormed (Bin "+" (Lit "4")
                  (Bin "/" (Lit "12") (Bin "*" (Lit "1") (Lit "2")))) =
  true /\
  value (Bin "+" (Lit "4")
             (Bin "/" (Lit "12") (Bin "*" (Lit "1") (Lit "2")))) =
  Some 10 /\
  evaluate "( 4 + ( 12 / ( 1 * 2 ) ) )" = EvalTrue 10 /\
  evaluate "4 + ( 12 / ( 1 * 2 ) )" = EvalTrue 10.
Proof.
  split; [reflexivity|]. split; [reflexivity|].
  apply (evaluate_correct_without_subtraction
           (Bin "+" (Lit "4")
                (Bin "/" (Lit "12") (Bin "*" (Lit "1") (Lit "2")))) 10);
    reflexivity.
Defined.

End EvaluatorRuns.

(** ** The failures of the evaluator *)

Section EvaluatorFailures.
Import RPN.

Lemma eval_forTokens_ReturnFalse inputTokens : forall valueStack fp final,
  forTokens inputTokens valueStack = ReturnFalse fp final <->
  exists pre token rest reached,
    inputTokens = pre ++ token :: rest /\
    forTokens pre valueStack = Next reached /\
    evalToken token reached = ReturnFalse fp final.
Proof.
  induction inputTokens as [|first tokens IH]; intros valueStack fp final.
  - simpl. split; [discriminate|].
    intros (pre & token & rest & reached & Heq & _). now destruct pre.
  - cbn [forTokens]. split.
    + destruct (evalToken first valueStack) as [st| | | |] eqn:Estep;
        try discriminate.
      * intros Hrun.
        apply IH in Hrun as (pre & token & rest & reached & -> & Hpre & Hstep).
        exists (first :: pre), token, rest, reached. simpl.
        now rewrite Estep.
      * intros [= <- <-]. now exists [], first, tokens, valueStack.
    + intros (pre & token & rest & reached & Heq & Hpre & Hstep).
      destruct pre as [|first' pre]; simpl in Heq, Hpre.
      * injection Heq as -> ->. injection Hpre as ->. now rewrite Hstep.
      * injection Heq as -> ->.
        destruct (evalToken first' valueStack) as [st| | | |];
          try discriminate.
        apply IH. now exists pre, token, rest, reached.
Qed.

Lemma evalToken_ReturnFalse token valueStack fp final :
  evalToken token valueStack = ReturnFalse fp final <->
  final = valueStack /\ verifyInteger token = false /\
  (isOperator token = true /\ valueStack = [] /\ fp = NotEnoughArguments \/
   isOperator token = false /\ fp = InvalidExpression).
Proof.
  unfold evalToken.
  destruct (verifyInteger token) eqn:Eint.
  { split.
    - destruct (stoi token); discriminate.
    - intros (_ & H & _). discriminate H. }
  destruct (isOperator token) eqn:Eop.
  - destruct valueStack as [|top [|next rest]]; cbn [List.length Nat.eqb Nat.leb].
    + split.
      * intros [= <- <-]. repeat split. now left.
      * intros (-> & _ & [(_ & _ & ->)|[H _]]); [reflexivity|discriminate H].
    + split; [discriminate|].
      intros (_ & _ & [(_ & H & _)|[H _]]); discriminate H.
    + split.
      * destruct (applyOperator token (top :: next :: rest)); discriminate.
      * intros (_ & _ & [(_ & H & _)|[H _]]); discriminate H.
  - split.
    + intros [= <- <-]. repeat split. now right.
    + intros (-> & _ & [(H & _)|[_ ->]]); [discriminate H|reflexivity].
Qed.

(** X20.  The "not enough arguments" failure is reported exactly when an
    operator is met while the value stack is empty; with one value the
    call returns [true] instead. *)
Theorem not_enough_arguments_iff valueStack inputTokens final :
  calculatePostfix valueStack inputTokens =
  ReturnsFalse NotEnoughArguments final <->
  final = [] /\
  exists pre token rest,
    inputTokens = pre ++ token :: rest /\
    isOperator token = true /\
    forTokens pre valueStack = Next [].
Proof.
  unfold calculatePostfix. split.
  - destruct (forTokens inputTokens valueStack) as [st| |fp st| |] eqn:Erun;
      try discriminate; [destruct st; discriminate|].
    intros [= -> ->].
    apply eval_forTokens_ReturnFalse in Erun
      as (pre & token & rest & reached & -> & Hpre & Hstep).
    apply evalToken_ReturnFalse in Hstep
      as (-> & _ & [(Hop & -> & _)|[_ Hfp]]); [|discriminate Hfp].
    split; [reflexivity|]. now exists pre, token, rest.
  - intros (-> & pre & token & rest & -> & Hop & Hpre).
    assert (Hrun : forTokens (pre ++ token :: rest) valueStack =
                   ReturnFalse NotEnoughArguments []).
    { apply eval_forTokens_ReturnFalse. exists pre, token, rest, [].
      repeat split; [assumption|].
      apply evalToken_ReturnFalse. repeat split.
      - now apply isOperator_not_integer.
      - now left. }
    now rewrite Hrun.
Qed.

Lemma not_enough_arguments_iff_witness :
  calculatePostfix [] ["2"; "3"; "+"; "*"; "+"; "7"] <>
  ReturnsFalse NotEnoughArguments [] /\
  calculatePostfix [] ["+"; "7"] = ReturnsFalse NotEnoughArguments [].
Proof.
  split; [discriminate|].
  apply (proj2 (not_enough_arguments_iff [] ["+"; "7"] [])).
  split; [reflexivity|]. exists [], "+", ["7"]. repeat split.
Defined.

(** X21.  The "invalid expression" failure is reported exactly when a token
    that is neither an integer nor an operator is reached: a bracket, the
    empty token, any other string.  The value stack is left as it was
    when the token was met. *)
Theorem invalid_expression_iff valueStack inputTokens final :
  calculatePostfix valueStack inputTokens =
  ReturnsFalse InvalidExpression final <->
  exists pre token rest,
    inputTokens = pre ++ token :: rest /\
    verifyInteger token = false /\ isOperator token = false /\
    forTokens pre valueStack = Next final.
Proof.
  unfold calculatePostfix. split.
  - destruct (forTokens inputTokens valueStack) as [st| |fp st| |] eqn:Erun;
      try discriminate; [destruct st; discriminate|].
    intros [= -> ->].
    apply eval_forTokens_ReturnFalse in Erun
      as (pre & token & rest & reached & -> & Hpre & Hstep).
    apply evalToken_ReturnFalse in Hstep
      as (-> & Hint & [(_ & _ & Hfp)|[Hop _]]); [discriminate Hfp|].
    now exists pre, token, rest.
  - intros (pre & token & rest & -> & Hint & Hop & Hpre).
    assert (Hrun : forTokens (pre ++ token :: rest) valueStack =
                   ReturnFalse InvalidExpression final).
    { apply eval_forTokens_ReturnFalse. exists pre, token, rest, final.
      repeat split; [assumption|].
      apply evalToken_ReturnFalse. repeat split; [assumption|now right]. }
    now rewrite Hrun.
Qed.

Lemma invalid_expression_iff_witness :
  calculatePostfix [] ["4"; "2"; ""; "+"] = ReturnsFalse InvalidExpression [2; 4].
Proof.
  apply (proj2 (invalid_expression_iff [] ["4"; "2"; ""; "+"] [2; 4])).
  exists ["4"; "2"], "", ["+"]. repeat split.
Defined.

Lemma eval_forTokens_valid inputTokens : forall valueStack final,
  Forall (fun token => isOperand_or_operator token = true) inputTokens ->
  forTokens inputTokens valueStack <> ReturnFalse InvalidExpression final.
Proof.
  intros valueStack final Hall Hrun.
  apply eval_forTokens_ReturnFalse in Hrun
    as (pre & token & rest & reached & -> & _ & Hstep).
  apply evalToken_ReturnFalse in Hstep
    as (_ & Hint & [(_ & _ & Hfp)|[Hop _]]); [discriminate Hfp|].
  apply Forall_app in Hall as [_ Hall]. inversion Hall as [|? ? Htoken _].
  unfold isOperand_or_operator in Htoken. rewrite Hint, Hop in Htoken.
  discriminate Htoken.
Qed.

(** X22.  The two stages fit: what the shunter returns holds integers and
    operators only, so [evaluate] never fails with the "invalid
    expression" diagnostic of the evaluator, whatever the expression. *)
Theorem evaluate_never_invalid_expression expression :
  evaluate expression <> EvalFalse InvalidExpression.
Proof.
  unfold evaluate.
  destruct (ShuntingYard.shuntInfixToRPN ShuntingYard.fresh
              (tokenise expression) []) as [self' out|fp self' out|] eqn:Eshunt.
  - apply shunted_classes in Eshunt as (postfixTokens & -> & Hall).
    simpl. unfold calculatePostfix.
    pose proof (eval_forTokens_valid postfixTokens [] ) as Hvalid.
    destruct (forTokens postfixTokens []) as [st| |fp st| |].
    + destruct st; discriminate.
    + discriminate.
    + intros [= ->]. now apply (Hvalid st).
    + discriminate.
    + discriminate.
  - intros [= ->].
    unfold ShuntingYard.shuntInfixToRPN in Eshunt.
    destruct (ShuntingYard.forTokens (tokenise expression) ShuntingYard.fresh)
      as [self1|fp1 self1|] eqn:Eloop.
    + destruct (ShuntingYard.drain (ShuntingYard.operatorStack self1)
                                   (ShuntingYard.outputQueue self1))
        as [self2|fp2 self2|] eqn:Edrain; try discriminate.
      injection Eshunt as -> _ _. clear -Edrain.
      revert Edrain.
      generalize (ShuntingYard.outputQueue self1) as queue.
      generalize (ShuntingYard.operatorStack self1) as stack.
      induction stack as [|top below IH]; intros queue; simpl;
        [discriminate|].
      destruct (isParenthesis top); [discriminate|apply IH].
    + injection Eshunt as -> _ _. clear -Eloop.
      revert Eloop. generalize ShuntingYard.fresh as self.
      induction (tokenise expression) as [|token tokens IH]; intros self;
        simpl; [discriminate|].
      destruct (ShuntingYard.shuntToken token self) as [s1|fp s1|] eqn:Estep.
      * apply IH.
      * intros [= -> ->]. revert Estep. unfold ShuntingYard.shuntToken.
        destruct (verifyInteger token); [discriminate|].
        destruct (isOperator token); [discriminate|].
        destruct (token =? "(")%string; [discriminate|].
        destruct (token =? ")")%string.
        -- destruct (ShuntingYard.operatorStack self) as [|top below];
             [discriminate|].
           destruct (ShuntingYard.whileNotLeft top below
                       (ShuntingYard.outputQueue self)) as [[last st] q].
           destruct (negb (last =? "(")%string); discriminate.
        -- destruct (negb (token =? "")%string); discriminate.
      * discriminate.
    + discriminate.
  - discriminate.
Qed.

End EvaluatorFailures.

(** ** Expressions the two stages accept although they are malformed *)

Section Leniency.
Import RPN.




End Leniency.

(** ** main *)

(** The four well-formed samples evaluate to 4, 8, 8 and 10; the fifth
    fails in the shunter with the mismatched parenthesis diagnostic. *)
Example main_evaluations :
  mainEvaluations =
  [EvalTrue 4; EvalTrue 8; EvalTrue 8; EvalTrue 10;
   EvalFalse MismatchedParenthesis].
Proof. reflexivity. Qed.

(** ** Instances of the two bracket failures *)

Section BracketFailures.
Import ShuntingYard.

Lemma unmatched_right_parenthesis_fails_witness :
  forTokens ["1"; "+"; "2"] fresh = Next (mkState ["+"] ["1"; "2"]) /\
  noLeftParenthesis ["+"] /\
  shuntInfixToRPN fresh (["1"; "+"; "2"] ++ ")" :: ["3"]) ["0"] =
  ReturnsFalse MismatchedParenthesis
               (mkState [] (["1"; "2"] ++ ["+"])) ["0"].
Proof.
  assert (Hno : noLeftParenthesis ["+"]) by (repeat constructor).
  split; [reflexivity|]. split; [exact Hno|].
  apply (unmatched_right_parenthesis_fails
           ["1"; "+"; "2"] ["3"] fresh "+" [] ["1"; "2"] ["0"]
           eq_refl Hno).
Defined.

Lemma unclosed_left_parenthesis_fails_witness :
  forTokens ["("; "1"; "+"] fresh = Next (mkState ["+"; "("] ["1"]) /\
  exists self',
    shuntInfixToRPN fresh ["("; "1"; "+"] ["0"] =
    ReturnsFalse MismatchedParenthesis self' ["0"].
Proof.
  split; [reflexivity|].
  apply (unclosed_left_parenthesis_fails
           ["("; "1"; "+"] fresh (mkState ["+"; "("] ["1"]) ["0"] eq_refl).
  apply Exists_cons_tl. apply Exists_cons_hd. reflexivity.
Defined.

End BracketFailures.

(** ** Operators are pushed without any comparison *)

Section OperatorPushes.
Import ShuntingYard.

Lemma token_not_stacked_integer token :
  verifyInteger token = true ->
  isOperator token = false /\ (token =? "(")%string = false.
Proof.
  intros Hint. split.
  - destruct (isOperator token) eqn:Eop; [|reflexivity].
    apply isOperator_not_integer in Eop. congruence.
  - now apply verifyInteger_not_parenthesis, isParenthesis_false in Hint.
Qed.

(** As long as no right bracket is read, the loop only pushes: the
    operator stack grows by the operators and left brackets read, the last
    read on top, and the queue by the integers read. *)
Lemma forTokens_until_right inputTokens : forall self self',
  Forall (fun token => (token =? ")")%string = false) inputTokens ->
  forTokens inputTokens self = Next self' ->
  operatorStack self' =
  rev (filter isStacked inputTokens) ++ operatorStack self /\
  outputQueue self' =
  outputQueue self ++ filter verifyInteger inputTokens.
Proof.
  unfold isStacked.
  induction inputTokens as [|token tokens IH]; intros self self' Hall.
  - simpl. intros [= <-]. now rewrite app_nil_r.
  - inversion Hall as [|? ? Htoken Htokens]; subst. cbn [forTokens filter].
    destruct (shuntToken token self) as [self1| |] eqn:Estep;
      try discriminate.
    intros Hrun. destruct (IH _ _ Htokens Hrun) as [-> ->]. clear IH Hrun.
    apply shuntToken_Next in Estep
      as [[Hint ->]|[(Hint & Hop & ->)|[[-> ->]|[[-> _]|[-> ->]]]]];
      cbn [operatorStack outputQueue].
    + rewrite Hint.
      destruct (token_not_stacked_integer token Hint) as [-> ->].
      cbn [orb]. split; [reflexivity|]. now rewrite <- app_assoc.
    + rewrite Hint, Hop. cbn [orb rev]. split; [|reflexivity].
      now rewrite <- app_assoc.
    + change (isOperator "(" || ("(" =? "(")%string) with true.
      change (verifyInteger "(") with false.
      cbn [rev]. split; [|reflexivity]. now rewrite <- app_assoc.
    + discriminate Htoken.
    + split; reflexivity.
Qed.

(** C6.  Within a call of the shunter an operator token is pushed onto
    the operator stack whatever the stack and the queue hold after the
    tokens before it, and the call goes on with the next token: nothing
    is compared and nothing is popped.  A token other than the right
    bracket never removes anything from the operator stack; as long as no
    right bracket is read the stack holds every operator read, the last
    one on top; and on an input without brackets the operators only reach
    the output in the final drain, after all the integers and in the
    reverse of their order in the input. *)
Theorem operator_pushed_unconditionally :
  (forall token self,
      isOperator token = true ->
      shuntToken token self =
      Next (mkState (token :: operatorStack self) (outputQueue self))) /\
  (forall token self self',
      token <> ")" ->
      shuntToken token self = Next self' ->
      exists pushed,
        operatorStack self' = pushed ++ operatorStack self /\
        (outputQueue self' = outputQueue self \/
         outputQueue self' = outputQueue self ++ [token] /\
         verifyInteger token = true)) /\
  (forall pre token rest self0 self returnArray,
      isOperator token = true ->
      forTokens pre self0 = Next self ->
      forTokens (pre ++ token :: rest) self0 =
      forTokens rest
        (mkState (token :: operatorStack self) (outputQueue self)) /\
      shuntInfixToRPN self0 (pre ++ token :: rest) returnArray =
      shuntInfixToRPN
        (mkState (token :: operatorStack self) (outputQueue self))
        rest returnArray) /\
  (forall inputTokens self0 self',
      Forall (fun token => (token =? ")")%string = false) inputTokens ->
      forTokens inputTokens self0 = Next self' ->
      operatorStack self' =
      rev (filter isStacked inputTokens) ++ operatorStack self0 /\
      outputQueue self' =
      outputQueue self0 ++ filter verifyInteger inputTokens) /\
  (forall inputTokens returnArray,
      Forall (fun token =>
                isOperand_or_operator token || (token =? "")%string = true)
             inputTokens ->
      shuntInfixToRPN fresh inputTokens returnArray =
      ReturnsTrue fresh
        (returnArray ++ filter verifyInteger inputTokens ++
         rev (filter isOperator inputTokens))).
Proof.
  split; [|split; [|split; [|split]]].
  - intros token self Hop. now apply shuntToken_operator.
  - intros token self self' Hright Hstep.
    apply shuntToken_Next in Hstep
      as [[Hint ->]|[(Hint & Hop & ->)|[[-> ->]|[[-> _]|[-> ->]]]]];
      cbn [operatorStack outputQueue].
    + exists []. auto.
    + exists [token]. auto.
    + exists ["("]. auto.
    + contradiction.
    + exists []. auto.
  - intros pre token rest self0 self returnArray Hop Hpre.
    assert (Hloop : forTokens (pre ++ token :: rest) self0 =
                    forTokens rest
                      (mkState (token :: operatorStack self)
                               (outputQueue self))).
    { rewrite shunt_forTokens_app, Hpre. cbn [forTokens].
      now rewrite (shuntToken_operator token self Hop). }
    split; [exact Hloop|]. unfold shuntInfixToRPN. now rewrite Hloop.
  - exact forTokens_until_right.
  - intros inputTokens returnArray Hall. unfold shuntInfixToRPN, fresh.
    rewrite (forTokens_without_brackets inputTokens [] [] Hall).
    cbn [operatorStack outputQueue]. rewrite app_nil_r.
    rewrite drain_no_parenthesis.
    + cbn [operatorStack outputQueue]. now rewrite copyQueue_app.
    + apply Forall_rev. apply Forall_forall. intros token Hin.
      apply filter_In in Hin as [_ Hop].
      now apply isOperator_not_parenthesis.
Qed.

Lemma operator_pushed_unconditionally_witness :
  (isOperator "+" = true /\
   forTokens ["1"; "*"; "2"] fresh = Next (mkState ["*"] ["1"; "2"]) /\
   forTokens (["1"; "*"; "2"] ++ "+" :: ["3"; ""]) fresh =
   Next (mkState ["+"; "*"] ["1"; "2"; "3"]) /\
   shuntInfixToRPN fresh (["1"; "*"; "2"] ++ "+" :: ["3"; ""]) [] =
   ReturnsTrue fresh ["1"; "2"; "3"; "+"; "*"]) /\
  (Forall (fun token => (token =? ")")%string = false)
          ["("; "1"; "*"; "2"; "+"; "3"] /\
   forTokens ["("; "1"; "*"; "2"; "+"; "3"] fresh =
   Next (mkState ["+"; "*"; "("] ["1"; "2"; "3"]) /\
   ["+"; "*"; "("] =
   rev (filter isStacked ["("; "1"; "*"; "2"; "+"; "3"]) ++ [] /\
   ["1"; "2"; "3"] =
   [] ++ filter verifyInteger ["("; "1"; "*"; "2"; "+"; "3"]).
Proof.
  pose proof operator_pushed_unconditionally
    as (_ & _ & Hcall & Huntil & _).
  split.
  - destruct (Hcall ["1"; "*"; "2"] "+" ["3"; ""] fresh
                    (mkState ["*"] ["1"; "2"]) [] eq_refl eq_refl)
      as [Hloop Hrun].
    split; [reflexivity|]. split; [reflexivity|]. split.
    + rewrite Hloop. reflexivity.
    + rewrite Hrun. reflexivity.
  - assert (Hall : Forall (fun token => (token =? ")")%string = false)
                          ["("; "1"; "*"; "2"; "+"; "3"])
      by (repeat constructor).
    split; [exact Hall|].
    assert (Hrun : forTokens ["("; "1"; "*"; "2"; "+"; "3"] fresh =
                   Next (mkState ["+"; "*"; "("] ["1"; "2"; "3"]))
      by reflexivity.
    split; [exact Hrun|].
    exact (Huntil ["("; "1"; "*"; "2"; "+"; "3"] fresh
                  (mkState ["+"; "*"; "("] ["1"; "2"; "3"]) Hall Hrun).
Defined.

End OperatorPushes.
